(** * The Reed job-board client of JobSpy, embedded in Rocq

    Source files:
    - [src/jobspy/reed/constant.py]  (constants),
    - [src/jobspy/reed/util.py]      (remote detection, location parsing,
                                      job ids in URLs, query parameters,
                                      the format of API keys),
    - [src/jobspy/reed/__init__.py]  ([ReedScraper]: the constructor,
                                      [scrape], [_fetch_jobs], [_parse_job],
                                      [get_job_details]).

    The embedding is shallow.  Python values that come from the vendor are
    decoded JSON ([json]); code that can raise runs in the error monad
    [result]; code that talks to the vendor runs in [M], which threads the
    log of requests sent so far; the [while] loop of [scrape] takes fuel, one
    unit per page request.  The two regular expressions of [util.py] run on
    a small matcher for the fragment of [re] they use, and the constructor
    on models of UTF-8 and Base64. *)

From Stdlib Require Import ZArith Ascii String List Bool Lia.
From Stdlib Require Import Floats.SpecFloat Numbers.DecimalString.
From stdpp Require Import gmap strings list fin_maps.

Local Open Scope string_scope.
Local Open Scope Z_scope.

(** ** Python values and exceptions *)

Module Py.

(** Exceptions deriving from [Exception].  [RequestException] stands for
    [requests.exceptions.RequestException] and its subclasses (connection
    errors, timeouts, [HTTPError]); the others are the built-in errors the
    modelled code can meet.  Signals that derive from [BaseException] only
    ([KeyboardInterrupt], [SystemExit]) are outside the model. *)
Inductive exn : Type :=
| RequestException (kind : string)
| AttributeError
| TypeError
| ValueError
| OverflowError
| ValidationError
| OtherException (name : string).

Definition is_RequestException (e : exn) : bool :=
  match e with RequestException _ => true | _ => false end.

(** Code that returns or raises. *)
Inductive result (A : Type) : Type :=
| Ok (a : A)
| Raise (e : exn).
Global Arguments Ok {A} a.
Global Arguments Raise {A} e.

Global Instance result_ret : MRet result := @Ok.
Global Instance result_bind : MBind result := fun A B f m =>
  match m with Ok a => f a | Raise e => Raise e end.
Global Instance result_fmap : FMap result := fun A B f m =>
  match m with Ok a => Ok (f a) | Raise e => Raise e end.

(** [try: body  except Exception as e: handler e] *)
Definition try_except {A} (body : result A) (handler : exn -> result A)
  : result A :=
  match body with Ok a => Ok a | Raise e => handler e end.

(** A binary64 float, as the Standard Library specifies IEEE 754. *)
Definition float : Type := spec_float.

(** A decoded JSON document, as [json.loads] builds it: [null] is [None],
    numbers are [int] or [float], objects are dicts (an association list;
    a lookup returns the first binding of a key). *)
#[local] Unset Elimination Schemes.
Inductive json : Type :=
| JNull
| JBool (b : bool)
| JInt (n : Z)
| JFloat (x : float)
| JStr (s : string)
| JArr (items : list json)
| JObj (fields : list (string * json)).
#[local] Set Elimination Schemes.

(** What the interpreter provides and this module does not define: the
    process-salted [hash] of a string, [float(str)] ([None] when it raises
    [ValueError]), and [repr] of a float, list or dict. *)
Class Runtime : Type := {
  py_hash : string -> Z;
  float_of_str : string -> option float;
  py_repr : json -> string
}.

(** *** Strings

    A [string] holds the code points of a Python [str]; the model covers
    code points below 256. *)

(** [str.isspace] on one character. *)
Definition isspace (c : ascii) : bool :=
  let n := Z.of_N (N_of_ascii c) in
  ((9 <=? n) && (n <=? 13)) || ((28 <=? n) && (n <=? 32))
  || (n =? 133) || (n =? 160).

Definition is_empty (s : string) : bool :=
  match s with EmptyString => true | String _ _ => false end.

Fixpoint lstrip (s : string) : string :=
  match s with
  | EmptyString => EmptyString
  | String c s' => if isspace c then lstrip s' else s
  end.

Fixpoint rstrip (s : string) : string :=
  match s with
  | EmptyString => EmptyString
  | String c s' =>
      let t := rstrip s' in
      if isspace c && is_empty t then EmptyString else String c t
  end.

(** [s.strip()] *)
Definition strip (s : string) : string := rstrip (lstrip s).

(** [s.split(sep)] for a one-character separator: never the empty list. *)
Fixpoint split (sep : ascii) (s : string) : list string :=
  match s with
  | EmptyString => [EmptyString]
  | String c s' =>
      if Ascii.eqb c sep then EmptyString :: split sep s'
      else match split sep s' with
           | h :: t => String c h :: t
           | [] => [String c EmptyString]
           end
  end.

Definition lower_char (c : ascii) : ascii :=
  let n := Z.of_N (N_of_ascii c) in
  if ((65 <=? n) && (n <=? 90))
     || ((192 <=? n) && (n <=? 222) && negb (n =? 215))
  then ascii_of_N (Z.to_N (n + 32)) else c.

(** [s.lower()] *)
Fixpoint lower (s : string) : string :=
  match s with
  | EmptyString => EmptyString
  | String c s' => String (lower_char c) (lower s')
  end.

(** [pattern in text] *)
Fixpoint contains (pattern text : string) : bool :=
  String.prefix pattern text
  || match text with
     | EmptyString => false
     | String _ text' => contains pattern text'
     end.

(** [sep.join(parts)] *)
Fixpoint join (sep : string) (parts : list string) : string :=
  match parts with
  | [] => EmptyString
  | [p] => p
  | p :: rest => p +:+ sep +:+ join sep rest
  end.

(** [str(n)] for an [int]. *)
Definition str_of_int (n : Z) : string := NilZero.string_of_int (Z.to_int n).

(** *** Truthiness, [len], iteration, conversions *)

Definition float_is_zero (x : float) : bool :=
  match x with S754_zero _ => true | _ => false end.

(** [bool(v)] *)
Definition truthy (v : json) : bool :=
  match v with
  | JNull => false
  | JBool b => b
  | JInt n => negb (n =? 0)
  | JFloat x => negb (float_is_zero x)
  | JStr s => negb (is_empty s)
  | JArr items => match items with [] => false | _ => true end
  | JObj fields => match fields with [] => false | _ => true end
  end.

Definition is_None (v : json) : bool :=
  match v with JNull => true | _ => false end.

Fixpoint lookup_field (k : string) (fields : list (string * json))
  : option json :=
  match fields with
  | [] => None
  | (k', v) :: rest => if String.eqb k k' then Some v else lookup_field k rest
  end.

(** The keys of a dict, each once, in order of first appearance. *)
Fixpoint dict_keys (fields : list (string * json)) : list string :=
  match fields with
  | [] => []
  | (k, _) :: rest =>
      k :: List.filter (fun k' => negb (String.eqb k k')) (dict_keys rest)
  end.

(** [d.get(k, default)]: only a dict has the method. *)
Definition dict_get (d : json) (k : string) (default : json) : result json :=
  match d with
  | JObj fields =>
      match lookup_field k fields with Some v => Ok v | None => Ok default end
  | _ => Raise AttributeError
  end.

(** [v.strip()] and [v.lower()]: only a [str] has the methods. *)
Definition method_strip (v : json) : result string :=
  match v with JStr s => Ok (strip s) | _ => Raise AttributeError end.

Definition method_lower (v : json) : result string :=
  match v with JStr s => Ok (lower s) | _ => Raise AttributeError end.

(** [len(v)] *)
Definition py_len (v : json) : result Z :=
  match v with
  | JStr s => Ok (Z.of_nat (String.length s))
  | JArr items => Ok (Z.of_nat (List.length items))
  | JObj fields => Ok (Z.of_nat (List.length (dict_keys fields)))
  | _ => Raise TypeError
  end.

Fixpoint chars (s : string) : list json :=
  match s with
  | EmptyString => []
  | String c s' => JStr (String c EmptyString) :: chars s'
  end.

(** The items [for x in v] visits: the characters of a [str], the items of
    a list, the keys of a dict. *)
Definition py_iter (v : json) : result (list json) :=
  match v with
  | JStr s => Ok (chars s)
  | JArr items => Ok items
  | JObj fields => Ok (List.map JStr (dict_keys fields))
  | _ => Raise TypeError
  end.

(** [float(n)] for an [int]: round to nearest even; [OverflowError] when the
    result is not finite. *)
Definition float_of_int (n : Z) : result float :=
  match binary_normalize 53 1024 n 0 false with
  | S754_infinity _ => Raise OverflowError
  | x => Ok x
  end.

Section WithRuntime.
Context `{Runtime}.

(** [float(v)] *)
Definition py_float (v : json) : result float :=
  match v with
  | JInt n => float_of_int n
  | JBool b => float_of_int (if b then 1 else 0)
  | JFloat x => Ok x
  | JStr s =>
      match float_of_str s with Some x => Ok x | None => Raise ValueError end
  | JNull | JArr _ | JObj _ => Raise TypeError
  end.

(** [str(v)] *)
Definition py_str (v : json) : string :=
  match v with
  | JNull => "None"
  | JBool true => "True"
  | JBool false => "False"
  | JInt n => str_of_int n
  | JStr s => s
  | JFloat _ | JArr _ | JObj _ => py_repr v
  end.

End WithRuntime.

(** *** A fragment of the [re] module

    A compiled pattern is a sequence of items: literals, a character class
    repeated a fixed number of times or once or more (greedy, giving back
    characters when what follows fails), the parentheses of group 1, and
    the anchors [^] and [$].  The two patterns of [util.py] are in this
    fragment. *)
Inductive re_item : Type :=
| Lit (c : ascii)
| Cls (p : ascii -> bool) (n : nat)
| ClsPlus (p : ascii -> bool)
| GroupOpen
| GroupClose
| Bos
| Eos.

(** Where a match attempt stands: whether it is still at the start of the
    subject, the text of group 1 while it is open, and once it is closed. *)
Record re_state : Type := {
  at_start : bool;
  group_open : option string;
  group1 : option string
}.

Definition re_start (at_start : bool) : re_state :=
  {| at_start := at_start; group_open := None; group1 := None |}.

(** One character consumed. *)
Definition consume (c : ascii) (st : re_state) : re_state :=
  {| at_start := false;
     group_open :=
       match group_open st with
       | Some g => Some (g +:+ String c EmptyString)
       | None => None
       end;
     group1 := group1 st |}.

Definition newline : ascii := "010"%char.

Fixpoint take_class (p : ascii -> bool) (n : nat) (s : string)
    (st : re_state) : option (string * re_state) :=
  match n with
  | O => Some (s, st)
  | S n =>
      match s with
      | String c s' => if p c then take_class p n s' (consume c st) else None
      | EmptyString => None
      end
  end.

(** [p+] followed by [k]: the longest run first, then shorter ones. *)
Fixpoint take_plus {R} (p : ascii -> bool)
    (k : string -> re_state -> option R) (s : string) (st : re_state)
  : option R :=
  match s with
  | String c s' =>
      if p c then
        match take_plus p k s' (consume c st) with
        | Some r => Some r
        | None => k s' (consume c st)
        end
      else None
  | EmptyString => None
  end.

(** A match of the items at the head of [s]. *)
Fixpoint match_items (items : list re_item) (s : string) (st : re_state)
  : option re_state :=
  match items with
  | [] => Some st
  | Lit c :: rest =>
      match s with
      | String c' s' =>
          if Ascii.eqb c c' then match_items rest s' (consume c' st) else None
      | EmptyString => None
      end
  | Cls p n :: rest =>
      match take_class p n s st with
      | Some (s', st') => match_items rest s' st'
      | None => None
      end
  | ClsPlus p :: rest => take_plus p (match_items rest) s st
  | GroupOpen :: rest =>
      match_items rest s
        {| at_start := at_start st; group_open := Some EmptyString;
           group1 := group1 st |}
  | GroupClose :: rest =>
      match_items rest s
        {| at_start := at_start st; group_open := None;
           group1 := group_open st |}
  | Bos :: rest => if at_start st then match_items rest s st else None
  | Eos :: rest =>
      if is_empty s || String.eqb s (String newline EmptyString)
      then match_items rest s st else None
  end.

(** [pattern.match(s)] *)
Definition re_match (items : list re_item) (s : string) : option re_state :=
  match_items items s (re_start true).

Fixpoint search_from (items : list re_item) (s : string) (at_start : bool)
  : option re_state :=
  match match_items items s (re_start at_start) with
  | Some st => Some st
  | None =>
      match s with
      | String _ s' => search_from items s' false
      | EmptyString => None
      end
  end.

(** [re.search(pattern, s)]: the leftmost match. *)
Definition re_search (items : list re_item) (s : string) : option re_state :=
  search_from items s true.

Definition upper_char (c : ascii) : ascii :=
  let n := Z.of_N (N_of_ascii c) in
  if ((97 <=? n) && (n <=? 122))
     || ((224 <=? n) && (n <=? 254) && negb (n =? 247))
  then ascii_of_N (Z.to_N (n - 32)) else c.

(** A class or a literal under [re.IGNORECASE]. *)
Definition fold_case (p : ascii -> bool) (c : ascii) : bool :=
  p c || p (lower_char c) || p (upper_char c).

Definition ignorecase (items : list re_item) : list re_item :=
  List.map
    (fun item =>
       match item with
       | Lit c => Cls (fold_case (Ascii.eqb c)) 1
       | Cls p n => Cls (fold_case p) n
       | ClsPlus p => ClsPlus (fold_case p)
       | _ => item
       end)
    items.

Definition in_range (lo hi : ascii) (c : ascii) : bool :=
  (N_of_ascii lo <=? N_of_ascii c)%N && (N_of_ascii c <=? N_of_ascii hi)%N.

(** [\d] *)
Definition isdigit (c : ascii) : bool := in_range "0" "9" c.

(** The literals of a text, one item per character. *)
Fixpoint literal (s : string) : list re_item :=
  match s with
  | EmptyString => []
  | String c s' => Lit c :: literal s'
  end.

(** *** [bytes], UTF-8 and Base64 *)

(** A [bytes] value. *)
Definition bytes : Type := list ascii.

Definition byte_of (n : N) : ascii := ascii_of_N n.

(** [s.encode()]: UTF-8, for code points below 256. *)
Fixpoint str_encode (s : string) : bytes :=
  match s with
  | EmptyString => []
  | String c s' =>
      let n := N_of_ascii c in
      if (n <? 128)%N then c :: str_encode s'
      else byte_of (192 + n / 64) :: byte_of (128 + n mod 64) :: str_encode s'
  end.

(** [b.decode()]: UTF-8, for code points below 256; anything else in the
    input raises [UnicodeDecodeError]. *)
Fixpoint bytes_decode (b : bytes) : result string :=
  match b with
  | [] => Ok EmptyString
  | c :: rest =>
      let n := N_of_ascii c in
      if (n <? 128)%N then String c <$> bytes_decode rest
      else if (n =? 194)%N || (n =? 195)%N then
        match rest with
        | c' :: rest' =>
            let n' := N_of_ascii c' in
            if (128 <=? n')%N && (n' <? 192)%N
            then String (byte_of ((n - 192) * 64 + (n' - 128)))
                   <$> bytes_decode rest'
            else Raise (OtherException "UnicodeDecodeError")
        | [] => Raise (OtherException "UnicodeDecodeError")
        end
      else Raise (OtherException "UnicodeDecodeError")
  end.

(** The Base64 alphabet. *)
Definition b64_alphabet : string :=
  "ABCDEFGHIJKLMNOPQRSTUVWXYZabcdefghijklmnopqrstuvwxyz0123456789+/".

Definition b64_char (i : N) : ascii :=
  match String.get (N.to_nat i) b64_alphabet with
  | Some c => c
  | None => "="%char
  end.

(** [base64.b64encode(b)] *)
Fixpoint b64encode (b : bytes) : bytes :=
  match b with
  | [] => []
  | [b0] =>
      let n := (N_of_ascii b0 * 65536)%N in
      [b64_char (n / 262144); b64_char ((n / 4096) mod 64); "="%char;
       "="%char]
  | [b0; b1] =>
      let n := (N_of_ascii b0 * 65536 + N_of_ascii b1 * 256)%N in
      [b64_char (n / 262144); b64_char ((n / 4096) mod 64);
       b64_char ((n / 64) mod 64); "="%char]
  | b0 :: b1 :: b2 :: rest =>
      let n :=
        (N_of_ascii b0 * 65536 + N_of_ascii b1 * 256 + N_of_ascii b2)%N in
      b64_char (n / 262144) :: b64_char ((n / 4096) mod 64)
      :: b64_char ((n / 64) mod 64) :: b64_char (n mod 64)
      :: b64encode rest
  end.

End Py.

(** ** The shared job-posting schema ([jobspy.model])

    The module is imported by the client and is not part of these sources;
    the declarations below carry the fields the client reads and writes. *)

Module Model.
Import Py.

(** Modelled from the spec: the [JobType] enum of [jobspy.model]; the client
    names four members, [OTHER_JOB_TYPE] stands for any member it does not
    name. *)
Inductive JobType : Type :=
| FULL_TIME
| PART_TIME
| CONTRACT
| TEMPORARY
| OTHER_JOB_TYPE.

(** Modelled from the spec: the [Country] enum of [jobspy.model]; the client
    only ever writes [UK], the vendor's home country. *)
Inductive Country : Type :=
| UK
| OTHER_COUNTRY.

(** Modelled from the spec: [jobspy.model.Location], city, optional region
    and country. *)
Record Location : Type := {
  city : option string;
  state : option string;
  country : option Country
}.

(** Modelled from the spec: [jobspy.model.CompensationInterval]. *)
Inductive CompensationInterval : Type :=
| YEARLY
| MONTHLY
| WEEKLY
| DAILY
| HOURLY.

(** Modelled from the spec: [jobspy.model.Compensation], min and max amount,
    currency and interval. *)
Record Compensation : Type := {
  interval : option CompensationInterval;
  min_amount : option float;
  max_amount : option float;
  currency : option string
}.

(** A calendar date ([datetime.date]). *)
Record date : Type := { year : Z; month : Z; day : Z }.

(** Modelled from the spec: [jobspy.model.JobPost], the normalized posting. *)
Record JobPost : Type := {
  id : option string;
  title : string;
  company_name : option string;
  job_url : string;
  job_url_direct : option string;
  location : option Location;
  description : option string;
  compensation : option Compensation;
  date_posted : option date;
  job_type : option (list JobType);
  is_remote : option bool
}.

(** Modelled from the spec: the constructor of [jobspy.model.JobPost] as the
    client calls it.  The schema validates its fields; the one argument the
    client hands over as the vendor sent it is the direct-apply URL, and a
    value that is not text is refused with [ValidationError]. *)
Definition new_JobPost (id title company_name job_url : string)
    (job_url_direct : json) (location : option Location)
    (description : option string) (compensation : option Compensation)
    (date_posted : option date) (job_type : option (list JobType))
    (is_remote : bool) : result JobPost :=
  match job_url_direct with
  | JStr direct =>
      Ok {| id := Some id; title := title; company_name := Some company_name;
            job_url := job_url; job_url_direct := Some direct;
            location := location; description := description;
            compensation := compensation; date_posted := date_posted;
            job_type := job_type; is_remote := Some is_remote |}
  | _ => Raise ValidationError
  end.

(** Modelled from the spec: the [Site] enum of [jobspy.model], the job board
    a scraper is for; the client only ever writes [REED]. *)
Inductive Site : Type :=
| REED
| OTHER_SITE.

(** Modelled from the spec: [jobspy.model.JobResponse], the list of postings
    handed back to the caller. *)
Record JobResponse : Type := { jobs : list JobPost }.

End Model.

(** The search criteria, in a module of their own because they share field
    names with [JobPost]. *)
Module Input.
Import Model.

(** Modelled from the spec: [jobspy.model.ScraperInput], the search criteria;
    [None] is a field left unset. *)
Record ScraperInput : Type := {
  search_term : option string;
  location : option string;
  distance : option Z;
  is_remote : bool;
  job_type : option JobType;
  results_wanted : option Z;
  offset : option Z;
  hours_old : option Z
}.

End Input.

(** ** [jobspy/reed/constant.py] *)

Module Constant.

Definition REED_BASE_URL : string := "https://www.reed.co.uk/api/1.0".
Definition REED_SEARCH_ENDPOINT : string := "/search".
Definition REED_JOB_DETAILS_ENDPOINT : string := "/jobs".

Definition REED_MAX_RESULTS_PER_PAGE : Z := 100.
Definition REED_MAX_DISTANCE : Z := 100.

Definition REED_DEFAULT_HEADERS : list (string * string) :=
  [ ("Accept", "application/json"); ("Content-Type", "application/json") ].

Definition REED_JOB_TYPE_MAPPING : list (string * string) :=
  [ ("permanent", "permanent"); ("contract", "contract");
    ("temp", "temporary"); ("partTime", "part_time");
    ("fullTime", "full_time") ].

Definition REED_REMOTE_PATTERNS : list string :=
  [ "remote"; "work from home"; "wfh"; "home based"; "anywhere in uk";
    "location flexible" ].

End Constant.

(** ** [jobspy/reed/util.py] *)

Module Util.
Import Py Model Constant.

(** [is_job_remote(location_name, description)] *)
Definition is_job_remote (location_name description : json) : result bool :=
  if negb (truthy location_name) && negb (truthy description) then Ok false
  else
    let text_to_check : list string := [] in
    text_to_check ←
      (if truthy location_name
       then l ← method_lower location_name; Ok (text_to_check ++ [l])%list
       else Ok text_to_check);
    text_to_check ←
      (if truthy description
       then d ← method_lower description; Ok (text_to_check ++ [d])%list
       else Ok text_to_check);
    let combined_text := join " " text_to_check in
    Ok (existsb (fun pattern => contains pattern combined_text)
          REED_REMOTE_PATTERNS).

(** [parse_location(location_name)] *)
Definition parse_location (location_name : json) : result (option Location) :=
  if negb (truthy location_name) then Ok None
  else
    location_name ← method_strip location_name;
    let parts := split "," location_name in
    let city :=
      match parts with p0 :: _ => strip p0 | [] => location_name end in
    let state :=
      match parts with _ :: p1 :: _ => Some (strip p1) | _ => None end in
    Ok (Some {| city := Some city; state := state; country := Some UK |}).

(** A value held by the query-parameter dict. *)
Inductive pyval : Type :=
| VNone
| VInt (n : Z)
| VStr (s : string).

Global Instance pyval_eq_dec : EqDecision pyval.
Proof. solve_decision. Defined.

(** [format_reed_search_params(keywords, location_name, distance, is_remote,
    job_type, hours_old, results_to_take, results_to_skip)] *)
Definition format_reed_search_params (keywords location_name : option string)
    (distance : Z) (is_remote : bool) (job_type : option JobType)
    (hours_old : option Z) (results_to_take results_to_skip : Z)
  : gmap string pyval :=
  let params : gmap string pyval :=
    <["distanceFromLocation" := VInt (Z.min distance 100)]>
      (<["resultsToSkip" := VInt results_to_skip]>
         (<["resultsToTake" := VInt (Z.min results_to_take 100)]> ∅)) in
  let params :=
    match keywords with
    | Some k => if negb (is_empty k) then <["keywords" := VStr k]> params
                else params
    | None => params
    end in
  let params :=
    match location_name with
    | Some l => if negb (is_empty l) && negb is_remote
                then <["locationName" := VStr l]> params else params
    | None => params
    end in
  let params :=
    match job_type with
    | Some job_type =>
        let params :=
          match job_type with
          | FULL_TIME => <["fullTime" := VStr "true"]> params
          | PART_TIME => <["partTime" := VStr "true"]> params
          | CONTRACT => <["contract" := VStr "true"]> params
          | TEMPORARY => <["temp" := VStr "true"]> params
          | OTHER_JOB_TYPE => params
          end in
        match job_type with
        | FULL_TIME => <["permanent" := VStr "true"]> params
        | _ => params
        end
    | None => params
    end in
  filter (fun kv => kv.2 ≠ VNone) params.

(** The pattern [r"/jobs/(\d+)"]. *)
Definition job_id_pattern : list re_item :=
  (literal "/jobs/" ++ [GroupOpen; ClsPlus isdigit; GroupClose])%list.

(** [extract_job_id_from_url(job_url)] *)
Definition extract_job_id_from_url (job_url : string) : option string :=
  match re_search job_id_pattern job_url with
  | Some m => group1 m
  | None => None
  end.

(** The class [[0-9a-f]]. *)
Definition hex_lower (c : ascii) : bool :=
  in_range "0" "9" c || in_range "a" "f" c.

(** The pattern
    [r"^[0-9a-f]{8}-[0-9a-f]{4}-[0-9a-f]{4}-[0-9a-f]{4}-[0-9a-f]{12}$"],
    compiled with [re.IGNORECASE]. *)
Definition uuid_pattern : list re_item :=
  ignorecase
    [ Bos; Cls hex_lower 8; Lit "-"; Cls hex_lower 4; Lit "-";
      Cls hex_lower 4; Lit "-"; Cls hex_lower 4; Lit "-"; Cls hex_lower 12;
      Eos ].

(** [validate_reed_api_key(api_key)] *)
Definition validate_reed_api_key (api_key : option string) : bool :=
  match api_key with
  | None => false
  | Some key =>
      if is_empty key then false
      else match re_match uuid_pattern key with
           | Some _ => true
           | None => false
           end
  end.

End Util.

(** ** [jobspy/reed/__init__.py]: [ReedScraper] *)

Module Reed.
Import Py Model Input Util Constant.

(** *** The vendor and the session *)

(** One [session.get(url, params=..., timeout=...)]; what the session does
    underneath to deliver it (proxies, its own retries) is not modelled. *)
Record Request : Type := {
  url : string;
  params : gmap string pyval;
  timeout : Z
}.

(** What comes back: a status code and a body, [None] when the body is not
    JSON. *)
Record Response : Type := {
  status_code : Z;
  body : option json
}.

(** The vendor, seen from the client: given the requests sent before and the
    current one, the transport either raises or delivers a response. *)
Definition Vendor : Type := list Request -> Request -> result Response.

(** Code that uses the session: it may raise, and it extends the log of
    requests sent. *)
Definition M (A : Type) : Type := list Request -> result A * list Request.

Global Instance M_ret : MRet M := fun A a sent => (Ok a, sent).
Global Instance M_bind : MBind M := fun A B f m sent =>
  match m sent with
  | (Ok a, sent') => f a sent'
  | (Raise e, sent') => (Raise e, sent')
  end.

Definition lift {A} (r : result A) : M A := fun sent => (r, sent).

Definition try_exceptM {A} (body : M A) (handler : exn -> M A) : M A :=
  fun sent =>
    match body sent with
    | (Ok a, sent') => (Ok a, sent')
    | (Raise e, sent') => handler e sent'
    end.

(** [response.raise_for_status()] *)
Definition raise_for_status (response : Response) : result unit :=
  if (400 <=? status_code response) && (status_code response <? 600)
  then Raise (RequestException "HTTPError") else Ok tt.

(** [response.json()] *)
Definition response_json (response : Response) : result json :=
  match body response with
  | Some data => Ok data
  | None => Raise (RequestException "JSONDecodeError")
  end.

(** [x or default] on an optional [int]. *)
Definition or_default (x : option Z) (default : Z) : Z :=
  match x with
  | Some n => if n =? 0 then default else n
  | None => default
  end.

(** The local variables the pagination loop of [scrape] updates. *)
Record Locals : Type := {
  job_list : list JobPost;
  total_fetched : Z;
  results_to_skip : Z
}.

(** How an iteration of the [while] loop ends. *)
Inductive flow : Type :=
| Break
| Next.

(** What the constructor takes from its surroundings: the process
    environment ([os.getenv]) and [jobspy.util.create_session], of which
    only the headers of the session it returns are modelled. *)
Class Platform : Type := {
  getenv : string -> option string;
  create_session :
    option (list string) -> option string -> bool -> bool
    -> gmap string string
}.

(** The session of a scraper: its default headers. *)
Record Session : Type := { headers : gmap string string }.

(** The attributes of a [ReedScraper]; the first four are set by the
    constructor of the base class [Scraper]. *)
Record ReedScraper : Type := {
  site : Site;
  proxies : option (list string);
  ca_cert : option string;
  user_agent : option string;
  api_key : string;
  session : Session
}.

(** [x or y] on optional text. *)
Definition or_else (x y : option string) : option string :=
  match x with
  | Some s => if is_empty s then y else x
  | None => y
  end.

(** [x or default] on optional text. *)
Definition or_text (x : option string) (default : string) : string :=
  match x with
  | Some s => if is_empty s then default else s
  | None => default
  end.

Definition invalid_key_warning : string :=
  "Reed API key format appears invalid. Expected UUID format.".

(** [ReedScraper.__init__]: the scraper and the warnings logged, or the
    exception raised. *)
Definition __init__ `{Platform} (proxies : option (list string))
    (ca_cert user_agent api_key : option string)
  : result (ReedScraper * list string) :=
  let api_key := or_else api_key (getenv "REED_API_KEY") in
  match api_key with
  | None => Raise ValueError
  | Some key =>
      if is_empty key then Raise ValueError
      else
        let warnings :=
          if negb (validate_reed_api_key api_key) then [invalid_key_warning]
          else [] in
        let session_headers := create_session proxies ca_cert false true in
        let auth_string := key +:+ ":" in
        encoded_auth ← bytes_decode (b64encode (str_encode auth_string));
        let session_headers :=
          <["User-Agent" := or_text user_agent "JobSpy-Reed-Scraper/1.0"]>
            (<["Authorization" := "Basic " +:+ encoded_auth]>
               session_headers) in
        Ok ({| site := REED; proxies := proxies; ca_cert := ca_cert;
               user_agent := user_agent; api_key := key;
               session := {| headers := session_headers |} |},
            warnings)
  end.

Section Client.
Context `{Runtime} (vendor : Vendor).

Definition base_url : string := REED_BASE_URL.

(** [self.session.get(url, params=params, timeout=timeout)] *)
Definition session_get (url : string) (params : gmap string pyval)
    (timeout : Z) : M Response :=
  fun sent =>
    let request := {| url := url; params := params; timeout := timeout |} in
    (vendor sent request, (sent ++ [request])%list).

(** The request [_fetch_jobs] sends for its arguments. *)
Definition search_request (keywords location_name : option string)
    (distance results_to_take results_to_skip : Z) (is_remote : bool)
    (job_type : option JobType) (hours_old : option Z) : Request :=
  {| url := base_url +:+ "/search";
     params :=
       format_reed_search_params keywords location_name distance is_remote
         job_type hours_old results_to_take results_to_skip;
     timeout := 30 |}.

(** The [try] block of [_fetch_jobs]. *)
Definition _fetch_jobs_try (keywords location_name : option string)
    (distance results_to_take results_to_skip : Z) (is_remote : bool)
    (job_type : option JobType) (hours_old : option Z) : M (option json) :=
  let params :=
    format_reed_search_params keywords location_name distance is_remote
      job_type hours_old results_to_take results_to_skip in
  let url := base_url +:+ "/search" in
  response ← session_get url params 30;
  _ ← lift (raise_for_status response);
  data ← lift (response_json response);
  match
    match data with
    | JObj fields => lookup_field "results" fields
    | JArr _ => Some data
    | _ => None
    end
  with
  | Some jobs =>
      (* log.info(f"Found {len(jobs)} jobs from Reed API") *)
      _ ← lift (py_len jobs);
      mret (Some jobs)
  | None => mret (Some (JArr []))
  end.

(** [ReedScraper._fetch_jobs]: [None] is Python's [None], [Some v] a value
    that was returned. *)
Definition _fetch_jobs (keywords location_name : option string)
    (distance results_to_take results_to_skip : Z) (is_remote : bool)
    (job_type : option JobType) (hours_old : option Z) : M (option json) :=
  try_exceptM
    (_fetch_jobs_try keywords location_name distance results_to_take
       results_to_skip is_remote job_type hours_old)
    (fun e =>
       if is_RequestException e then mret None   (* except RequestException *)
       else mret None).                          (* except Exception *)

(** The block of [_parse_job] under [# Parse compensation]. *)
Definition parse_compensation (min_salary max_salary : json)
  : result (option Compensation) :=
  if negb (is_None min_salary) || negb (is_None max_salary)
  then
    min_amount ←
      (if truthy min_salary then Some <$> py_float min_salary else Ok None);
    max_amount ←
      (if truthy max_salary then Some <$> py_float max_salary else Ok None);
    Ok (Some {| min_amount := min_amount; max_amount := max_amount;
                currency := Some "GBP"; interval := Some YEARLY |})
  else Ok None.

(** The [try] block of [_parse_job]. *)
Definition _parse_job_try (job_data : json) : result (option JobPost) :=
  v ← dict_get job_data "jobId" (JStr "");
  let job_id := py_str v in
  v ← dict_get job_data "jobTitle" (JStr "");
  title ← method_strip v;
  v ← dict_get job_data "employerName" (JStr "");
  company_name ← method_strip v;
  if is_empty title then Ok None
  else
    let job_url :=
      if negb (is_empty job_id)
      then "https://www.reed.co.uk/jobs/" +:+ job_id
      else "https://www.reed.co.uk/jobs/unknown-"
           +:+ str_of_int (py_hash title) in
    external_url ← dict_get job_data "externalUrl" JNull;
    let job_url_direct :=
      if truthy external_url then external_url else JStr job_url in
    location_name ← dict_get job_data "locationName" JNull;
    location ← parse_location location_name;
    min_salary ← dict_get job_data "minimumSalary" JNull;
    max_salary ← dict_get job_data "maximumSalary" JNull;
    compensation ← parse_compensation min_salary max_salary;
    let job_type_list : list JobType := [] in
    v ← dict_get job_data "jobDescription" (JStr "");
    description ← method_strip v;
    let date_posted : option date := None in
    location_name ← dict_get job_data "locationName" JNull;
    remote_check ← is_job_remote location_name (JStr description);
    job_post ←
      new_JobPost job_id title company_name job_url job_url_direct location
        (if negb (is_empty description) then Some description else None)
        compensation date_posted
        (match job_type_list with [] => None | _ => Some job_type_list end)
        remote_check;
    Ok (Some job_post).

(** [ReedScraper._parse_job] *)
Definition _parse_job (job_data : json) : result (option JobPost) :=
  try_except (_parse_job_try job_data) (fun e => Ok None).

(** The [for job_data in jobs_batch] loop of [scrape]: each record that
    normalizes to a posting is appended and counted; the loop is left as soon
    as the wanted count is reached. *)
Fixpoint for_job_data (results_wanted : Z) (jobs_batch : list json)
    (st : Locals) : Locals :=
  match jobs_batch with
  | [] => st
  | job_data :: rest =>
      match try_except (_parse_job job_data) (fun e => Ok None) with
      | Ok (Some job_post) =>
          let st :=
            {| job_list := (job_list st ++ [job_post])%list;
               total_fetched := total_fetched st + 1;
               results_to_skip := results_to_skip st |} in
          if results_wanted <=? total_fetched st then st   (* break *)
          else for_job_data results_wanted rest st
      | _ => for_job_data results_wanted rest st           (* continue *)
      end
  end.

(** The page size an iteration asks for. *)
Definition page_size (results_wanted results_per_page : Z) (st : Locals) : Z :=
  let remaining_results := results_wanted - total_fetched st in
  Z.min results_per_page remaining_results.

(** The call [self._fetch_jobs(keywords=..., ..., hours_old=...)] of the
    loop. *)
Definition fetch_batch (scraper_input : ScraperInput)
    (current_page_size results_to_skip : Z) : M (option json) :=
  _fetch_jobs (search_term scraper_input) (location scraper_input)
    (or_default (distance scraper_input) 10) current_page_size
    results_to_skip (is_remote scraper_input) (job_type scraper_input)
    (hours_old scraper_input).

(** One iteration of the [while] loop of [scrape], entered with
    [total_fetched < results_wanted]. *)
Definition loop_body (scraper_input : ScraperInput)
    (results_wanted results_per_page : Z) (st : Locals) : M (flow * Locals) :=
  let current_page_size := page_size results_wanted results_per_page st in
  jobs_batch ← fetch_batch scraper_input current_page_size (results_to_skip st);
  match jobs_batch with
  | None => mret (Break, st)
  | Some jobs_batch =>
      if negb (truthy jobs_batch) then mret (Break, st)
      else
        items ← lift (py_iter jobs_batch);
        let st := for_job_data results_wanted items st in
        n ← lift (py_len jobs_batch);
        if n <? current_page_size then mret (Break, st)
        else
          mret (Next, {| job_list := job_list st;
                         total_fetched := total_fetched st;
                         results_to_skip := results_to_skip st + n |})
  end.

(** The [while total_fetched < results_wanted] loop; [fuel] bounds the
    iterations, and [None] means the bound was reached with the loop still
    running. *)
Fixpoint while_loop (fuel : nat) (scraper_input : ScraperInput)
    (results_wanted results_per_page : Z) (st : Locals) : M (option Locals) :=
  if total_fetched st <? results_wanted then
    match fuel with
    | O => mret None
    | S fuel =>
        r ← loop_body scraper_input results_wanted results_per_page st;
        match r with
        | (Break, st) => mret (Some st)
        | (Next, st) =>
            while_loop fuel scraper_input results_wanted results_per_page st
        end
    end
  else mret (Some st).

(** The locals of [scrape] when the loop is entered. *)
Definition initial (scraper_input : ScraperInput) : Locals :=
  {| job_list := [];
     total_fetched := 0;
     results_to_skip := or_default (offset scraper_input) 0 |}.

(** [ReedScraper.scrape] *)
Definition scrape (fuel : nat) (scraper_input : ScraperInput)
  : M (option JobResponse) :=
  let results_wanted := or_default (results_wanted scraper_input) 15 in
  let results_per_page := Z.min 100 results_wanted in
  st ←
    while_loop fuel scraper_input results_wanted results_per_page
      (initial scraper_input);
  mret ((fun st => {| jobs := job_list st |}) <$> st).

(** [ReedScraper.get_job_details]: the decoded body, or [None] ([JNull]). *)
Definition get_job_details (job_id : string) : M json :=
  try_exceptM
    (let url := base_url +:+ "/jobs/" +:+ job_id in
     response ← session_get url ∅ 30;
     _ ← lift (raise_for_status response);
     lift (response_json response))
    (fun e => mret JNull).

(** The request an iteration entered with locals [st] sends. *)
Definition page_request (scraper_input : ScraperInput)
    (results_wanted results_per_page : Z) (st : Locals) : Request :=
  search_request (search_term scraper_input) (location scraper_input)
    (or_default (distance scraper_input) 10)
    (page_size results_wanted results_per_page st) (results_to_skip st)
    (is_remote scraper_input) (job_type scraper_input)
    (hours_old scraper_input).

(** The step relation of the pagination loop:
    [advances si rw rpp k st sent st' sent'] when [k] iterations, each entered
    with the loop condition true and ended without [break], lead from locals
    [st] and log [sent] to [st'] and [sent']. *)
Inductive advances (scraper_input : ScraperInput)
    (results_wanted results_per_page : Z)
  : nat -> Locals -> list Request -> Locals -> list Request -> Prop :=
| advances_O st sent :
    advances scraper_input results_wanted results_per_page 0 st sent st sent
| advances_S k st sent st1 sent1 st' sent' :
    total_fetched st < results_wanted ->
    loop_body scraper_input results_wanted results_per_page st sent
      = (Ok (Next, st1), sent1) ->
    advances scraper_input results_wanted results_per_page k st1 sent1
      st' sent' ->
    advances scraper_input results_wanted results_per_page (S k) st sent
      st' sent'.

End Client.

End Reed.

(** ** Vocabulary of the specification *)

Module Spec.
Import Py Model Input Util Constant Reed.

(** The text of [s] before its first [sep] (all of [s] when there is none). *)
Fixpoint text_before (sep : ascii) (s : string) : string :=
  match s with
  | EmptyString => EmptyString
  | String c s' =>
      if Ascii.eqb c sep then EmptyString else String c (text_before sep s')
  end.

(** The whole text of [s] after its first [sep], if there is one. *)
Fixpoint text_after (sep : ascii) (s : string) : option string :=
  match s with
  | EmptyString => None
  | String c s' => if Ascii.eqb c sep then Some s' else text_after sep s'
  end.

(** The integer a float stands for, when it stands for one. *)
Definition integer_value (x : float) : option Z :=
  match x with
  | S754_zero _ => Some 0
  | S754_finite s m e =>
      let n := if s then Z.neg m else Z.pos m in
      if 0 <=? e then Some (n * 2 ^ e)
      else if n mod 2 ^ (- e) =? 0 then Some (n / 2 ^ (- e)) else None
  | _ => None
  end.

(** The amount a salary field is turned into: the salary cast to a float when
    it is truthy, nothing when it is [None], zero or empty. *)
Definition amount_matches `{Runtime} (salary : json) (amount : option float)
  : Prop :=
  if truthy salary then exists x, py_float salary = Ok x /\ amount = Some x
  else amount = None.

(** What a posting owes to the record it was made from. *)
Record normalized `{Runtime} (job_data : json) (p : JobPost) : Prop := {
  norm_title :
    exists v, dict_get job_data "jobTitle" (JStr "") = Ok v
              /\ method_strip v = Ok (title p) /\ is_empty (title p) = false;
  norm_location :
    exists v, dict_get job_data "locationName" JNull = Ok v
              /\ parse_location v = Ok (Model.location p);
  norm_compensation :
    exists lo hi,
      dict_get job_data "minimumSalary" JNull = Ok lo
      /\ dict_get job_data "maximumSalary" JNull = Ok hi
      /\ parse_compensation lo hi = Ok (compensation p);
  norm_job_type : Model.job_type p = None;
  norm_date_posted : date_posted p = None;
  norm_job_url :
    exists v, dict_get job_data "jobId" (JStr "") = Ok v
              /\ id p = Some (py_str v)
              /\ job_url p
                 = if is_empty (py_str v)
                   then "https://www.reed.co.uk/jobs/unknown-"
                        +:+ str_of_int (py_hash (title p))
                   else "https://www.reed.co.uk/jobs/" +:+ py_str v;
  norm_job_url_direct :
    exists v, dict_get job_data "externalUrl" JNull = Ok v
              /\ JStr <$> job_url_direct p
                 = Some (if truthy v then v else JStr (job_url p));
  norm_is_remote :
    exists v d, dict_get job_data "locationName" JNull = Ok v
                /\ dict_get job_data "jobDescription" (JStr "") = Ok (JStr d)
                /\ description p
                   = (if is_empty (strip d) then None else Some (strip d))
                /\ Some <$> is_job_remote v (JStr (strip d))
                   = Ok (Model.is_remote p)
}.

(** The job-type keys of a query, with their values, in a fixed order. *)
Definition job_type_keys : list string :=
  ["fullTime"; "permanent"; "partTime"; "contract"; "temp"].

(** The keys the [if]/[elif] chain over the job type can write. *)
Definition chain_keys : list string :=
  ["fullTime"; "partTime"; "contract"; "temp"].

Definition flags_among (keys : list string) (params : gmap string pyval)
  : list (string * pyval) :=
  omap (fun k => (fun v => (k, v)) <$> params !! k) keys.

(** *** Texts, patterns and encodings *)

(** Every character of [s] satisfies [p]. *)
Fixpoint all_chars (p : ascii -> bool) (s : string) : bool :=
  match s with
  | EmptyString => true
  | String c s' => p c && all_chars p s'
  end.

(** [s] begins with a character that satisfies [p]. *)
Definition starts_with (p : ascii -> bool) (s : string) : bool :=
  match s with
  | EmptyString => false
  | String c _ => p c
  end.

(** The state of a match attempt after the whole of [s] is consumed. *)
Fixpoint consume_all (s : string) (st : re_state) : re_state :=
  match s with
  | EmptyString => st
  | String c s' => consume_all s' (consume c st)
  end.

Definition not_slash (c : ascii) : bool := negb (Ascii.eqb c "/").

(** A hexadecimal digit, in either case. *)
Definition is_hex (c : ascii) : bool :=
  in_range "0" "9" c || in_range "a" "f" c || in_range "A" "F" c.

Definition hex_run (n : nat) (s : string) : Prop :=
  String.length s = n /\ all_chars is_hex s = true.

(** The 8-4-4-4-12 layout of a UUID. *)
Definition uuid_shaped (s : string) : Prop :=
  exists a b c d e,
    s = a +:+ "-" +:+ b +:+ "-" +:+ c +:+ "-" +:+ d +:+ "-" +:+ e
    /\ hex_run 8 a /\ hex_run 4 b /\ hex_run 4 c /\ hex_run 4 d
    /\ hex_run 12 e.

(** The place of a character in the Base64 alphabet. *)
Definition b64_index (c : ascii) : option N :=
  N.of_nat <$> String.index 0 (String c EmptyString) b64_alphabet.

Definition is_pad (c : ascii) : bool := Ascii.eqb c "=".

(** Base64 decoding of padded input, as the receiver of an [Authorization]
    header does it. *)
Fixpoint b64decode (b : bytes) : option bytes :=
  match b with
  | [] => Some []
  | c0 :: c1 :: c2 :: c3 :: rest =>
      i0 ← b64_index c0;
      i1 ← b64_index c1;
      if is_pad c3 then
        match rest with
        | [] =>
            if is_pad c2 then
              let m := (i0 * 262144 + i1 * 4096)%N in
              Some [byte_of (m / 65536)]
            else
              i2 ← b64_index c2;
              let m := (i0 * 262144 + i1 * 4096 + i2 * 64)%N in
              Some [byte_of (m / 65536); byte_of ((m / 256) mod 256)]
        | _ => None
        end
      else
        i2 ← b64_index c2;
        i3 ← b64_index c3;
        let m := (i0 * 262144 + i1 * 4096 + i2 * 64 + i3)%N in
        tail ← b64decode rest;
        Some (byte_of (m / 65536) :: byte_of ((m / 256) mod 256)
              :: byte_of (m mod 256) :: tail)
  | _ => None
  end.

Section Construction.
Context `{Platform}.

(** The key the constructor settles on: the argument when it is a non-empty
    text, the environment variable otherwise ([""] when neither is). *)
Definition resolved_key (api_key : option string) : string :=
  or_text api_key (or_text (getenv "REED_API_KEY") "").

(** The scraper the constructor builds around a key. *)
Definition built (proxies : option (list string))
    (ca_cert user_agent : option string) (key : string) : ReedScraper :=
  {| site := REED; proxies := proxies; ca_cert := ca_cert;
     user_agent := user_agent; api_key := key;
     session := {| headers :=
       <["User-Agent" := or_text user_agent "JobSpy-Reed-Scraper/1.0"]>
         (<["Authorization" :=
              "Basic " +:+ string_of_list_ascii
                             (b64encode (str_encode (key +:+ ":")))]>
            (create_session proxies ca_cert false true)) |} |}.

End Construction.

(** A search request for a page of 1 to 100 records. *)
Definition well_sized (request : Request) : Prop :=
  url request = "https://www.reed.co.uk/api/1.0/search"
  /\ timeout request = 30
  /\ exists n,
       params request !! "resultsToTake" = Some (VInt n) /\ 1 <= n <= 100.

(** A transport failure or an HTTP error status: what makes
    [session.get] or [raise_for_status] raise a [RequestException]. *)
Definition transport_or_http_error (reply : result Response) : bool :=
  match reply with
  | Raise e => is_RequestException e
  | Ok response =>
      (400 <=? status_code response) && (status_code response <? 600)
  end.

Definition not_comma (c : ascii) : bool := negb (Ascii.eqb c ",").

Definition is_text (v : json) : bool :=
  match v with JStr _ => true | _ => false end.

(** The fields of a raw record that [_parse_job] trims, and its salary
    fields. *)
Definition text_keys : list string :=
  ["jobTitle"; "employerName"; "jobDescription"].

Definition salary_keys : list string := ["minimumSalary"; "maximumSalary"].

(** The request for the details of one job. *)
Definition details_request (job_id : string) : Request :=
  {| url := "https://www.reed.co.uk/api/1.0/jobs/" +:+ job_id;
     params := ∅; timeout := 30 |}.

Section Vendors.
Context `{Runtime}.

(** A record that normalizes to a posting. *)
Definition parsable (job_data : json) : Prop :=
  exists p, _parse_job job_data = Ok (Some p).

(** A vendor whose every non-empty page holds a record that normalizes. *)
Definition productive (vendor : Vendor) : Prop :=
  forall keywords location_name distance take skip is_remote job_type
         hours_old sent jobs sent',
    _fetch_jobs vendor keywords location_name distance take skip is_remote
      job_type hours_old sent = (Ok (Some jobs), sent') ->
    truthy jobs = true ->
    exists items, py_iter jobs = Ok items /\ Exists parsable items.

(** A vendor whose every page is a list of at least [size] records, none of
    which normalizes. *)
Definition barren (size : Z) (vendor : Vendor) : Prop :=
  forall keywords location_name distance take skip is_remote job_type
         hours_old sent,
    exists items sent',
      _fetch_jobs vendor keywords location_name distance take skip is_remote
        job_type hours_old sent = (Ok (Some (JArr items)), sent')
      /\ size <= Z.of_nat (length items)
      /\ Forall (fun job_data => _parse_job job_data = Ok None) items.


End Vendors.

End Spec.

(** ** Sample inputs *)

Module Sample.
Import Py Model Input Util Constant Reed.

Definition runtime : Runtime :=
  {| py_hash := fun _ => 7;
     float_of_str := fun _ => None;
     py_repr := fun _ => "?" |}.

(** A raw record with a title and nothing else. *)
Definition titled (t : string) : json := JObj [("jobTitle", JStr t)].

Definition salaried (lo hi : json) : json :=
  JObj [("jobId", JInt 42); ("jobTitle", JStr "Developer");
        ("employerName", JStr "ACME"); ("minimumSalary", lo);
        ("maximumSalary", hi)].

Definition min_only : json :=
  JObj [("jobId", JInt 42); ("jobTitle", JStr "Developer");
        ("employerName", JStr "ACME"); ("minimumSalary", JInt 30000)].

Definition page (records : list json) : result Response :=
  Ok {| status_code := 200; body := Some (JObj [("results", JArr records)]) |}.

(** A vendor that answers every request with the same reply. *)
Definition always (reply : result Response) : Vendor := fun _ _ => reply.

(** A vendor that answers the first request with one reply and every later
    request with another. *)
Definition first_then (first later : result Response) : Vendor :=
  fun sent _ => match sent with [] => first | _ => later end.

Definition wanted (n : option Z) : ScraperInput :=
  {| search_term := Some "python"; location := None; distance := None;
     is_remote := false; job_type := None; results_wanted := n;
     offset := None; hours_old := None |}.

Definition full_page : result Response :=
  page [titled "Dev"; titled " "; titled ""; titled "Ops"].

(** A raw record with a title and a location. *)
Definition located (l : string) : json :=
  JObj [("jobTitle", JStr "Developer"); ("locationName", JStr l)].

(** A raw record with a job id and an external URL. *)
Definition linked (external_url : json) : json :=
  JObj [("jobId", JInt 42); ("jobTitle", JStr "Developer");
        ("externalUrl", external_url)].

(** A vendor whose every page is one record without a title. *)
Definition blank_pages : Vendor := always (page [titled ""]).

(** A process whose environment holds, or not, a key, and whose new
    sessions carry one header. *)
Definition platform (env_key : option string) : Platform :=
  {| getenv := fun name =>
       if String.eqb name "REED_API_KEY" then env_key else None;
     create_session := fun _ _ _ _ => {[ "Accept" := "*/*" ]} |}.

(** A raw record whose employer is JSON [null]. *)
Definition nameless : json :=
  JObj [("jobId", JInt 42); ("jobTitle", JStr "Developer");
        ("employerName", JNull)].

(** A raw record whose texts are padded with white space. *)
Definition padded : json :=
  JObj [("jobId", JInt 42); ("jobTitle", JStr "  Developer ");
        ("employerName", JStr " ACME  "); ("jobDescription", JStr "   ")].

(** The details of a job, as the vendor sends them. *)
Definition details : json :=
  JObj [("jobId", JInt 42); ("jobTitle", JStr "Developer")].

End Sample.

(** * Properties *)

Import Py Model Input Util Constant Reed Spec.

(** ** The error monad *)

Lemma bind_Ok_inv {A B} (m : result A) (f : A -> result B) b :
  (m ≫= f) = Ok b -> exists a, m = Ok a /\ f a = Ok b.
Proof. destruct m as [a|e]; simpl; [eauto | discriminate]. Qed.

Lemma fmap_Ok_inv {A B} (f : A -> B) (m : result A) b :
  f <$> m = Ok b -> exists a, m = Ok a /\ b = f a.
Proof. destruct m as [a|e]; simpl; [intros [= <-]; eauto | discriminate]. Qed.

(** Peels the binds off a hypothesis [... = Ok _]. *)
Ltac invert_result :=
  repeat match goal with
  | H : (_ ≫= _) = Ok _ |- _ =>
      let a := fresh "v" in let E := fresh "E" in
      apply bind_Ok_inv in H; destruct H as (a & E & H)
  | H : _ <$> _ = Ok _ |- _ =>
      let a := fresh "x" in let E := fresh "E" in
      apply fmap_Ok_inv in H; destruct H as (a & E & H)
  | H : Ok _ = Ok _ |- _ => injection H as H
  | H : Raise _ = Ok _ |- _ => discriminate H
  | H : Some _ = Some _ |- _ => injection H as H
  end.

(** ** [util.py]: query parameters *)

(** The parameter dict is decided by which optional arguments are given;
    once these cases are split, its lookups compute. *)
Ltac params_by_cases keywords location_name is_remote job_type :=
  destruct keywords as [[|? ?]|];
  destruct location_name as [[|? ?]|];
  destruct is_remote;
  destruct job_type as [[]|];
  vm_compute.

Lemma flags_among_params keywords location_name distance is_remote job_type
    hours_old take skip :
  flags_among job_type_keys
    (format_reed_search_params keywords location_name distance is_remote
       job_type hours_old take skip)
  = match job_type with
    | Some FULL_TIME => [("fullTime", VStr "true"); ("permanent", VStr "true")]
    | Some PART_TIME => [("partTime", VStr "true")]
    | Some CONTRACT => [("contract", VStr "true")]
    | Some TEMPORARY => [("temp", VStr "true")]
    | Some OTHER_JOB_TYPE | None => []
    end.
Proof.
  params_by_cases keywords location_name is_remote job_type; reflexivity.
Qed.

Lemma chain_flags_at_most_one keywords location_name distance is_remote
    job_type hours_old take skip :
  (length (flags_among chain_keys
             (format_reed_search_params keywords location_name distance
                is_remote job_type hours_old take skip)) <= 1)%nat.
Proof.
  params_by_cases keywords location_name is_remote job_type; lia.
Qed.

(** C6.  In the query parameters, full-time sets [fullTime] and [permanent]
    to ["true"]; part-time sets only [partTime], contract only [contract],
    temporary only [temp]; and whatever the job type, at most one key of the
    [if]/[elif] chain is written. *)
Theorem job_type_flags keywords location_name distance is_remote hours_old
    take skip :
  let build jt :=
    format_reed_search_params keywords location_name distance is_remote jt
      hours_old take skip in
  flags_among job_type_keys (build (Some FULL_TIME))
    = [("fullTime", VStr "true"); ("permanent", VStr "true")]
  /\ flags_among job_type_keys (build (Some PART_TIME))
     = [("partTime", VStr "true")]
  /\ flags_among job_type_keys (build (Some CONTRACT))
     = [("contract", VStr "true")]
  /\ flags_among job_type_keys (build (Some TEMPORARY))
     = [("temp", VStr "true")]
  /\ forall jt, (length (flags_among chain_keys (build jt)) <= 1)%nat.
Proof.
  intros build. subst build. cbv beta.
  rewrite !flags_among_params. repeat split.
  intros jt. apply chain_flags_at_most_one.
Qed.

(** C8.  Two calls that differ only in [hours_old] build the same query
    parameters, hence the same request. *)
Theorem hours_old_ignored keywords location_name distance is_remote job_type
    take skip (h1 h2 : option Z) :
  format_reed_search_params keywords location_name distance is_remote job_type
    h1 take skip
  = format_reed_search_params keywords location_name distance is_remote
      job_type h2 take skip
  /\ search_request keywords location_name distance take skip is_remote
       job_type h1
     = search_request keywords location_name distance take skip is_remote
         job_type h2.
Proof. split; reflexivity. Qed.

(** The three base parameters are always present, capped as the vendor
    requires; [keywords] is present exactly when non-empty, [locationName]
    exactly when a location is given and the search is not remote-only. *)
Theorem query_parameters keywords location_name distance is_remote job_type
    hours_old take skip :
  let params :=
    format_reed_search_params keywords location_name distance is_remote
      job_type hours_old take skip in
  params !! "resultsToTake" = Some (VInt (Z.min take 100))
  /\ params !! "resultsToSkip" = Some (VInt skip)
  /\ params !! "distanceFromLocation" = Some (VInt (Z.min distance 100))
  /\ params !! "keywords"
     = match keywords with
       | Some k => if is_empty k then None else Some (VStr k)
       | None => None
       end
  /\ params !! "locationName"
     = match location_name with
       | Some l => if is_empty l || is_remote then None else Some (VStr l)
       | None => None
       end.
Proof.
  params_by_cases keywords location_name is_remote job_type;
    repeat split; reflexivity.
Qed.

(** ** [util.py]: remote detection *)

(** A posting is remote exactly when one of the remote patterns occurs in
    the lower-cased location and description, joined by a space (an empty
    text is left out); a record located at "Remote, UK" is remote, one at
    "London, Greater London" is not. *)
Theorem remote_detection :
  (forall l d,
      is_job_remote (JStr l) (JStr d)
      = Ok (existsb
              (fun pattern =>
                 contains pattern
                   (join " " (List.filter (fun t => negb (is_empty t))
                                [lower l; lower d])))
              REED_REMOTE_PATTERNS))
  /\ (exists p,
        @_parse_job Sample.runtime (Sample.located "Remote, UK")
        = Ok (Some p)
        /\ Model.is_remote p = Some true)
  /\ (exists p,
        @_parse_job Sample.runtime (Sample.located "London, Greater London")
        = Ok (Some p)
        /\ Model.is_remote p = Some false).
Proof.
  split; [|split; eexists; (split; [vm_compute; reflexivity | reflexivity])].
  intros [|c l] [|c' d]; reflexivity.
Qed.

(** ** [util.py]: location parsing *)

Lemma split_before_after sep s :
  split sep s
  = text_before sep s
    :: match text_after sep s with Some r => split sep r | None => [] end.
Proof.
  induction s as [|c s IH]; simpl; [done|].
  destruct (Ascii.eqb c sep); [done|]. by rewrite IH.
Qed.

(** C4, as the code has it.  For a non-empty location string the city is the
    trimmed text before the first comma, the region is the trimmed text
    between the first and the second comma (none without a comma), and the
    country is UK. *)
Theorem parse_location_city_region s :
  s <> "" ->
  parse_location (JStr s)
  = Ok (Some {| city := Some (strip (text_before "," (strip s)));
                state := (fun r => strip (text_before "," r))
                           <$> text_after "," (strip s);
                country := Some UK |}).
Proof.
  intros Hs. unfold parse_location.
  destruct s as [|c s']; [done|]. simpl truthy. cbv iota.
  change (method_strip (JStr ?x)) with (Ok (strip x)).
  change (mbind ?f (Ok ?x)) with (f x). cbv beta.
  rewrite (split_before_after "," (strip (String c s'))).
  destruct (text_after "," (strip (String c s'))) as [r|]; simpl; [|done].
  by rewrite (split_before_after "," r).
Qed.

(** The two location texts of the specification. *)
Lemma parse_location_city_region_witness :
  parse_location (JStr "Manchester, Greater Manchester")
  = Ok (Some {| city := Some "Manchester"; state := Some "Greater Manchester";
                country := Some UK |})
  /\ parse_location (JStr "Manchester")
     = Ok (Some {| city := Some "Manchester"; state := None;
                   country := Some UK |}).
Proof.
  split.
  - exact (parse_location_city_region "Manchester, Greater Manchester"
             ltac:(discriminate)).
  - exact (parse_location_city_region "Manchester" ltac:(discriminate)).
Defined.

(** C4 as stated fails: with two commas the region is not the entire text
    after the first comma. *)
Lemma region_stops_at_second_comma :
  parse_location (JStr "London, Greater London, UK")
  = Ok (Some {| city := Some "London"; state := Some "Greater London";
                country := Some UK |})
  /\ text_after "," "London, Greater London, UK" = Some " Greater London, UK"
  /\ Some "Greater London" <> Some " Greater London, UK"
  /\ Some "Greater London" <> Some (strip " Greater London, UK").
Proof. repeat split; discriminate. Qed.

(** ** [_parse_job]: normalization *)

Section Normalize.
Context `{Runtime}.

Lemma _parse_job_returns job_data : exists r, _parse_job job_data = Ok r.
Proof.
  unfold _parse_job, try_except. destruct (_parse_job_try job_data); eauto.
Qed.

Lemma _parse_job_Some job_data p :
  _parse_job job_data = Ok (Some p) -> _parse_job_try job_data = Ok (Some p).
Proof.
  unfold _parse_job, try_except.
  destruct (_parse_job_try job_data); congruence.
Qed.

Lemma _parse_job_normalized job_data p :
  _parse_job job_data = Ok (Some p) -> normalized job_data p.
Proof.
  intros Hp. apply _parse_job_Some in Hp. unfold _parse_job_try in Hp.
  invert_result.
  match type of Hp with context [is_empty ?t] =>
    destruct (is_empty t) eqn:Ht; [discriminate|] end.
  invert_result.
  match goal with E : new_JobPost _ _ _ _ ?d _ _ _ _ _ _ = Ok _ |- _ =>
    unfold new_JobPost in E; destruct d eqn:Hd; try discriminate E;
    injection E as E end.
  match goal with E : method_strip ?v = Ok ?d, _ : is_job_remote _ (JStr ?d) = _
    |- _ => destruct v; try discriminate E; injection E as E end.
  subst. split; simpl; eauto 10.
  - eexists. split; [eassumption|]. split; [done|].
    by destruct (is_empty (py_str _)).
  - eexists. split; [eassumption|]. by rewrite <- Hd.
  - eexists _, _. split; [eassumption|]. split; [eassumption|].
    split; [by destruct (is_empty (strip _))|].
    match goal with E : is_job_remote _ _ = Ok _ |- _ => by rewrite E end.
Qed.

Lemma emitted_title job_data p :
  _parse_job job_data = Ok (Some p) -> title p <> "".
Proof.
  intros Hp.
  destruct (_parse_job_normalized _ _ Hp) as [(v & _ & _ & Hv)].
  intros Heq. by rewrite Heq in Hv.
Qed.

Lemma blank_title_dropped job_data :
  (forall s, dict_get job_data "jobTitle" (JStr "") = Ok (JStr s) ->
             strip s = "") ->
  _parse_job job_data = Ok None.
Proof.
  intros Hblank.
  destruct (_parse_job_returns job_data) as [[p|] Hp]; [|done].
  destruct (_parse_job_normalized _ _ Hp) as [(v & Hg & Hs & Hv)].
  destruct v; try discriminate Hs. injection Hs as Hs.
  rewrite (Hblank _ Hg) in Hs. by rewrite <- Hs in Hv.
Qed.

Lemma parse_compensation_spec lo hi c :
  parse_compensation lo hi = Ok c ->
  if is_None lo && is_None hi then c = None
  else exists a b,
      c = Some {| interval := Some YEARLY; min_amount := a; max_amount := b;
                  currency := Some "GBP" |}
      /\ amount_matches lo a /\ amount_matches hi b.
Proof.
  unfold parse_compensation, amount_matches.
  rewrite <- negb_andb. destruct (is_None lo && is_None hi); simpl.
  - by intros [= <-].
  - intros Hc. invert_result. subst c. eexists _, _. split; [done|].
    split.
    + destruct (truthy lo); invert_result; subst; eauto.
    + destruct (truthy hi); invert_result; subst; eauto.
Qed.

(** C5, as the code has it.  A posting has no compensation when both salary
    fields are absent ([None]); otherwise it has one in GBP per year whose
    min and max amounts are the salaries cast to floats, where a side that
    is absent or zero gives no amount.  A minimum of 30000 alone gives the
    min amount 30000.0 and no max amount. *)
Theorem compensation_from_salaries job_data p lo hi :
  _parse_job job_data = Ok (Some p) ->
  dict_get job_data "minimumSalary" JNull = Ok lo ->
  dict_get job_data "maximumSalary" JNull = Ok hi ->
  (if is_None lo && is_None hi then compensation p = None
   else exists a b,
       compensation p
       = Some {| interval := Some YEARLY; min_amount := a; max_amount := b;
                 currency := Some "GBP" |}
       /\ amount_matches lo a /\ amount_matches hi b)
  /\ (lo = JInt 30000 -> hi = JNull ->
      exists x,
        compensation p
        = Some {| interval := Some YEARLY; min_amount := Some x;
                  max_amount := None; currency := Some "GBP" |}
        /\ integer_value x = Some 30000).
Proof.
  intros Hp Hlo Hhi.
  destruct (_parse_job_normalized _ _ Hp)
    as [_ _ (lo' & hi' & Hlo' & Hhi' & Hc)].
  rewrite Hlo in Hlo'. rewrite Hhi in Hhi'.
  injection Hlo' as <-. injection Hhi' as <-.
  split; [by apply parse_compensation_spec|].
  intros -> ->.
  assert (parse_compensation (JInt 30000) JNull
          = Ok (Some {| interval := Some YEARLY;
                        min_amount :=
                          Some (S754_finite false 8246337208320000 (-38));
                        max_amount := None; currency := Some "GBP" |})) as E
    by (vm_compute; reflexivity).
  rewrite E in Hc. injection Hc as <-. eexists. split; [done|].
  vm_compute; reflexivity.
Qed.

(** C9, as the code has it.  A posting has no job-type list at all (the
    empty list built locally is passed on as [None]) and no date posted. *)
Theorem job_type_and_date_absent job_data p :
  _parse_job job_data = Ok (Some p) ->
  Model.job_type p = None /\ date_posted p = None.
Proof.
  intros Hp. by destruct (_parse_job_normalized _ _ Hp) as [_ _ _ -> ->].
Qed.

(** The canonical URL of a posting is built from the job id, or from the
    hash of the title when the record has no id; the direct-apply URL is the
    vendor's external URL when there is one, the canonical URL otherwise. *)
Theorem posting_urls job_data p v e :
  _parse_job job_data = Ok (Some p) ->
  dict_get job_data "jobId" (JStr "") = Ok v ->
  dict_get job_data "externalUrl" JNull = Ok e ->
  job_url p
  = (if is_empty (py_str v)
     then "https://www.reed.co.uk/jobs/unknown-"
          +:+ str_of_int (py_hash (title p))
     else "https://www.reed.co.uk/jobs/" +:+ py_str v)
  /\ (if truthy e then exists d, e = JStr d /\ job_url_direct p = Some d
      else job_url_direct p = Some (job_url p)).
Proof.
  intros Hp Hv He.
  destruct (_parse_job_normalized _ _ Hp)
    as [_ _ _ _ _ (v' & Hv' & _ & Hu) (e' & He' & Hd) _].
  rewrite Hv in Hv'. injection Hv' as <-.
  rewrite He in He'. injection He' as <-.
  split; [done|].
  destruct (job_url_direct p) as [d|]; [|discriminate]. simpl in Hd.
  destruct (truthy e).
  - exists d. by injection Hd as <-.
  - by injection Hd as <-.
Qed.

End Normalize.

(** A record with an id and an external URL, and one with neither. *)
Lemma posting_urls_witness :
  (exists p,
      @_parse_job Sample.runtime
        (Sample.linked (JStr "https://acme.example/apply")) = Ok (Some p)
      /\ job_url p = "https://www.reed.co.uk/jobs/42"
      /\ job_url_direct p = Some "https://acme.example/apply")
  /\ (exists p,
        @_parse_job Sample.runtime (Sample.titled "Dev") = Ok (Some p)
        /\ job_url p = "https://www.reed.co.uk/jobs/unknown-7"
        /\ job_url_direct p = Some "https://www.reed.co.uk/jobs/unknown-7").
Proof.
  split.
  - eexists. split; [vm_compute; reflexivity|].
    destruct (@posting_urls Sample.runtime
                (Sample.linked (JStr "https://acme.example/apply")) _
                (JInt 42) (JStr "https://acme.example/apply")
                eq_refl eq_refl eq_refl) as (Hu & d & Hd & Hp).
    split; [exact Hu|]. injection Hd as <-. exact Hp.
  - eexists. split; [vm_compute; reflexivity|].
    destruct (@posting_urls Sample.runtime (Sample.titled "Dev") _
                (JStr "") JNull eq_refl eq_refl eq_refl) as (Hu & Hp).
    split; [exact Hu|]. exact Hp.
Defined.

(** A record whose only salary field is a minimum of 30000. *)
Lemma compensation_from_salaries_witness :
  exists p x,
    @_parse_job Sample.runtime Sample.min_only = Ok (Some p)
    /\ compensation p
       = Some {| interval := Some YEARLY; min_amount := Some x;
                 max_amount := None; currency := Some "GBP" |}
    /\ integer_value x = Some 30000.
Proof.
  eexists _. 
  assert (@_parse_job Sample.runtime Sample.min_only = Ok (Some _)) as Hp
    by (vm_compute; reflexivity).
  destruct (proj2 (@compensation_from_salaries Sample.runtime _ _
                     (JInt 30000) JNull Hp eq_refl eq_refl) eq_refl eq_refl)
    as (x & Hc & Hx).
  exists x. auto.
Defined.

(** C5 as stated fails: a supplied minimum of zero is not cast to 0.0, the
    posting's min amount is none. *)
Lemma zero_salary_gives_no_amount :
  exists p c,
    @_parse_job Sample.runtime (Sample.salaried (JInt 0) (JInt 50000))
    = Ok (Some p)
    /\ dict_get (Sample.salaried (JInt 0) (JInt 50000)) "minimumSalary" JNull
       = Ok (JInt 0)
    /\ @py_float Sample.runtime (JInt 0) = Ok (S754_zero false)
    /\ compensation p = Some c
    /\ min_amount c = None
    /\ min_amount c <> Some (S754_zero false).
Proof.
  eexists _, _. split; [vm_compute; reflexivity|].
  split; [reflexivity|]. split; [vm_compute; reflexivity|].
  split; [reflexivity|]. split; [reflexivity | discriminate].
Qed.

(** A record with a title and nothing else. *)
Lemma job_type_and_date_absent_witness :
  exists p,
    @_parse_job Sample.runtime (Sample.titled "Dev") = Ok (Some p)
    /\ Model.job_type p = None /\ date_posted p = None.
Proof.
  eexists. split; [vm_compute; reflexivity|].
  apply (@job_type_and_date_absent Sample.runtime (Sample.titled "Dev")).
  vm_compute; reflexivity.
Defined.

(** C9 as stated fails: the job-type field of a posting is not an empty
    list. *)
Lemma job_type_is_not_empty_list :
  exists p,
    @_parse_job Sample.runtime (Sample.titled "Dev") = Ok (Some p)
    /\ Model.job_type p <> Some [].
Proof. eexists. split; [vm_compute; reflexivity | discriminate]. Qed.

(** ** [_fetch_jobs] and [scrape]: pagination *)

Lemma take_of_params keywords location_name distance take skip is_remote
    job_type hours_old :
  format_reed_search_params keywords location_name distance is_remote job_type
    hours_old take skip !! "resultsToTake"
  = Some (VInt (Z.min take 100)).
Proof.
  params_by_cases keywords location_name is_remote job_type; reflexivity.
Qed.

Lemma skip_of_params keywords location_name distance take skip is_remote
    job_type hours_old :
  format_reed_search_params keywords location_name distance is_remote job_type
    hours_old take skip !! "resultsToSkip"
  = Some (VInt skip).
Proof.
  params_by_cases keywords location_name is_remote job_type; reflexivity.
Qed.

Section Pagination.
Context `{Runtime} (vendor : Vendor).

Lemma py_len_iter v n :
  py_len v = Ok n ->
  exists items, py_iter v = Ok items /\ n = Z.of_nat (length items).
Proof.
  destruct v; simpl; try discriminate; intros [= <-]; eexists;
    (split; [reflexivity|]).
  - f_equal. induction s; simpl; congruence.
  - done.
  - by rewrite length_map.
Qed.

Lemma falsy_sized_is_empty v items :
  truthy v = false -> py_iter v = Ok items -> items = [].
Proof.
  destruct v as [| | | |s|l|f]; simpl; try discriminate.
  - destruct s; [|discriminate]. by intros _ [= <-].
  - destruct l; [|discriminate]. by intros _ [= <-].
  - destruct f; [|discriminate]. by intros _ [= <-].
Qed.

(** *** One page fetch *)

Section Fetch.
Variables (keywords location_name : option string)
  (distance results_to_take results_to_skip : Z) (is_remote : bool)
  (job_type : option JobType) (hours_old : option Z).

Let request :=
  search_request keywords location_name distance results_to_take
    results_to_skip is_remote job_type hours_old.
Let fetch_try :=
  _fetch_jobs_try vendor keywords location_name distance results_to_take
    results_to_skip is_remote job_type hours_old.
Let fetch :=
  _fetch_jobs vendor keywords location_name distance results_to_take
    results_to_skip is_remote job_type hours_old.

(** The [try] block sends exactly one request, however it ends. *)
Lemma _fetch_jobs_try_sends sent :
  snd (fetch_try sent) = (sent ++ [request])%list.
Proof.
  subst fetch_try request.
  unfold _fetch_jobs_try, search_request, session_get, mbind, M_bind, lift,
    mret, M_ret.
  destruct (vendor sent _) as [response|e]; [|reflexivity].
  destruct (raise_for_status response); [|reflexivity].
  destruct (response_json response) as [data|e]; [|reflexivity].
  destruct (match data with JObj fields => _ | JArr _ => _ | _ => _ end)
    as [jobs|]; [|reflexivity].
  destruct (py_len jobs); reflexivity.
Qed.

Lemma _fetch_jobs_caught sent e sent' :
  fetch_try sent = (Raise e, sent') -> fetch sent = (Ok None, sent').
Proof.
  intros Hb. subst fetch fetch_try. unfold _fetch_jobs, try_exceptM.
  rewrite Hb. destruct (is_RequestException e); reflexivity.
Qed.

Lemma _fetch_jobs_passes sent r sent' :
  fetch_try sent = (Ok r, sent') -> fetch sent = (Ok r, sent').
Proof.
  intros Hb. subst fetch fetch_try. unfold _fetch_jobs, try_exceptM.
  by rewrite Hb.
Qed.

Lemma _fetch_jobs_returns sent :
  exists r, fetch sent = (Ok r, (sent ++ [request])%list).
Proof.
  pose proof (_fetch_jobs_try_sends sent) as Hs.
  destruct (fetch_try sent) as [[r|e] sent'] eqn:Hb; simpl in Hs; subst sent'.
  - exists r. by apply _fetch_jobs_passes.
  - exists None. by eapply _fetch_jobs_caught.
Qed.

(** A page that was returned has a length. *)
Lemma _fetch_jobs_sized sent jobs sent' :
  fetch sent = (Ok (Some jobs), sent') -> exists n, py_len jobs = Ok n.
Proof.
  subst fetch. unfold _fetch_jobs, try_exceptM.
  destruct (_fetch_jobs_try _ _ _ _ _ _ _ _ _ _) as [[r|e] s] eqn:Hb.
  - intros [= -> ->]. revert Hb.
    unfold _fetch_jobs_try, session_get, mbind, M_bind, lift, mret, M_ret.
    destruct (vendor sent _) as [response|e]; [|discriminate].
    destruct (raise_for_status response); [|discriminate].
    destruct (response_json response) as [data|e]; [|discriminate].
    destruct (match data with JObj fields => _ | JArr _ => _ | _ => _ end)
      as [j|].
    + destruct (py_len j) eqn:Hl; [|discriminate]. intros [= <- _]. eauto.
    + intros [= <- _]. simpl. eauto.
  - destruct (is_RequestException e); discriminate.
Qed.

(** A transport failure or an HTTP error status makes the [try] block raise
    a [RequestException]. *)
Lemma _fetch_jobs_try_error sent :
  transport_or_http_error (vendor sent request) = true ->
  exists e sent',
    fetch_try sent = (Raise e, sent') /\ is_RequestException e = true.
Proof.
  subst fetch_try request.
  unfold transport_or_http_error, _fetch_jobs_try, search_request,
    session_get, mbind, M_bind, lift.
  destruct (vendor sent _) as [response|e]; [|by eexists _, _].
  unfold raise_for_status. intros ->. by eexists _, _.
Qed.

End Fetch.

(** *** The loops *)

Section Loop.
Variables (si : ScraperInput) (rw rpp : Z).

Lemma for_job_data_count items st :
  Z.of_nat (length (job_list st)) = total_fetched st ->
  Z.of_nat (length (job_list (for_job_data rw items st)))
  = total_fetched (for_job_data rw items st).
Proof.
  revert st. induction items as [|job_data rest IH]; intros st Hst; simpl;
    [done|].
  destruct (try_except _ _) as [[job_post|]|e]; try by apply IH.
  set (st1 := {| job_list := _ |}).
  assert (Z.of_nat (length (job_list st1)) = total_fetched st1) as H1.
  { subst st1; simpl. rewrite length_app; simpl. lia. }
  destruct (rw <=? _); [done | by apply IH].
Qed.

Lemma for_job_data_bound items st :
  total_fetched st < rw -> total_fetched (for_job_data rw items st) <= rw.
Proof.
  revert st. induction items as [|job_data rest IH]; intros st Hst; simpl;
    [lia|].
  destruct (try_except _ _) as [[job_post|]|e]; try by apply IH.
  set (st1 := {| job_list := _ |}).
  destruct (rw <=? _) eqn:Hle.
  - subst st1; simpl in *. lia.
  - apply IH. subst st1; simpl. lia.
Qed.

Lemma for_job_data_skip items st :
  results_to_skip (for_job_data rw items st) = results_to_skip st.
Proof.
  revert st. induction items as [|job_data rest IH]; intros st; simpl; [done|].
  destruct (try_except _ _) as [[job_post|]|e]; try by apply IH.
  destruct (rw <=? _); [done | by rewrite IH].
Qed.

Lemma for_job_data_titles items st :
  Forall (fun p => title p <> "") (job_list st) ->
  Forall (fun p => title p <> "") (job_list (for_job_data rw items st)).
Proof.
  revert st. induction items as [|job_data rest IH]; intros st Hst; simpl;
    [done|].
  destruct (try_except _ _) as [[job_post|]|e] eqn:Hp; try by apply IH.
  assert (title job_post <> "") as Hne.
  { destruct (_parse_job job_data) as [r|e] eqn:Hj; simpl in Hp;
      [injection Hp as -> | discriminate].
    by eapply emitted_title. }
  set (st1 := {| job_list := _ |}).
  assert (Forall (fun p => title p <> "") (job_list st1)) as H1.
  { subst st1; simpl. apply Forall_app; split; [done | by constructor]. }
  destruct (rw <=? _); [done | by apply IH].
Qed.

(** An iteration never raises, sends exactly one request, and changes the
    accumulated postings only through the [for] loop. *)
Lemma loop_body_returns st sent :
  exists fl st' items,
    loop_body vendor si rw rpp st sent
    = (Ok (fl, st'), (sent ++ [page_request si rw rpp st])%list)
    /\ job_list st' = job_list (for_job_data rw items st)
    /\ total_fetched st' = total_fetched (for_job_data rw items st).
Proof.
  unfold loop_body, fetch_batch, mbind, M_bind.
  destruct (_fetch_jobs_returns (search_term si) (location si)
              (or_default (distance si) 10) (page_size rw rpp st)
              (results_to_skip st) (is_remote si) (job_type si) (hours_old si)
              sent) as [r Hf].
  fold (page_request si rw rpp st) in Hf. rewrite Hf.
  destruct r as [jobs_batch|]; [|by exists Break, st, []].
  destruct (truthy jobs_batch); simpl; [|by exists Break, st, []].
  destruct (_fetch_jobs_sized _ _ _ _ _ _ _ _ _ _ _ Hf) as [n Hn].
  destruct (py_len_iter _ _ Hn) as (items & Hi & _).
  unfold lift. rewrite Hi, Hn.
  destruct (n <? _); unfold mret, M_ret; eexists _, _, items; eauto.
Qed.

(** The rule for invariants of the pagination loop: a property of the
    accumulated postings and their count that the [for] loop preserves
    holds when the [while] loop is left. *)
Lemma while_loop_invariant (I : list JobPost -> Z -> Prop) :
  (forall st items, I (job_list st) (total_fetched st) ->
     total_fetched st < rw ->
     I (job_list (for_job_data rw items st))
       (total_fetched (for_job_data rw items st))) ->
  forall fuel st sent st' sent',
    I (job_list st) (total_fetched st) ->
    while_loop vendor fuel si rw rpp st sent = (Ok (Some st'), sent') ->
    I (job_list st') (total_fetched st').
Proof.
  intros Hstep fuel.
  induction fuel as [|fuel IH]; intros st sent st' sent' Hst; simpl;
    destruct (total_fetched st <? rw) eqn:Hc;
    try (intros [= <- _]; done); try discriminate.
  unfold mbind, M_bind.
  destruct (loop_body_returns st sent) as (fl & st1 & items & -> & Hj & Ht).
  assert (I (job_list st1) (total_fetched st1)).
  { rewrite Hj, Ht. apply Hstep; [done | lia]. }
  destruct fl; [intros [= <- _]; done | by apply IH].
Qed.

Lemma while_loop_returns fuel st sent :
  exists r sent', while_loop vendor fuel si rw rpp st sent = (Ok r, sent').
Proof.
  revert st sent. induction fuel as [|fuel IH]; intros st sent; simpl;
    destruct (total_fetched st <? rw); try by eexists _, _.
  unfold mbind, M_bind.
  destruct (loop_body_returns st sent) as (fl & st1 & items & -> & _).
  destruct fl; [by eexists _, _ | apply IH].
Qed.

Lemma while_loop_advances k st sent st' sent' fuel :
  advances vendor si rw rpp k st sent st' sent' ->
  while_loop vendor (k + fuel) si rw rpp st sent
  = while_loop vendor fuel si rw rpp st' sent'.
Proof.
  induction 1 as [|k st sent st1 sent1 st' sent' Hlt Hb _ IH]; [done|].
  simpl. apply Z.ltb_lt in Hlt. rewrite Hlt.
  unfold mbind, M_bind at 1. by rewrite Hb.
Qed.

Lemma while_loop_break st sent st1 sent1 fuel :
  total_fetched st < rw ->
  loop_body vendor si rw rpp st sent = (Ok (Break, st1), sent1) ->
  while_loop vendor (S fuel) si rw rpp st sent = (Ok (Some st1), sent1).
Proof.
  intros Hlt Hb. simpl. apply Z.ltb_lt in Hlt. rewrite Hlt.
  unfold mbind, M_bind. by rewrite Hb.
Qed.

(** A page shorter than asked for ends the iteration with [break], after the
    [for] loop has gone over it. *)
Lemma loop_body_short_page st sent jobs_batch sent1 n :
  fetch_batch vendor si (page_size rw rpp st) (results_to_skip st) sent
  = (Ok (Some jobs_batch), sent1) ->
  py_len jobs_batch = Ok n ->
  n < page_size rw rpp st ->
  exists items,
    py_iter jobs_batch = Ok items
    /\ loop_body vendor si rw rpp st sent
       = (Ok (Break, for_job_data rw items st),
          (sent ++ [page_request si rw rpp st])%list).
Proof.
  intros Hf Hn Hlt.
  destruct (_fetch_jobs_returns (search_term si) (location si)
              (or_default (distance si) 10) (page_size rw rpp st)
              (results_to_skip st) (is_remote si) (job_type si) (hours_old si)
              sent) as [r Hr].
  fold (page_request si rw rpp st) in Hr. unfold fetch_batch in Hf.
  rewrite Hf in Hr. injection Hr as <- ->.
  destruct (py_len_iter _ _ Hn) as (items & Hi & Hlen).
  exists items. split; [done|].
  unfold loop_body, fetch_batch, mbind, M_bind. rewrite Hf.
  destruct (truthy jobs_batch) eqn:Ht; simpl.
  - unfold lift. rewrite Hi, Hn. apply Z.ltb_lt in Hlt. by rewrite Hlt.
  - by rewrite (falsy_sized_is_empty _ _ Ht Hi).
Qed.

Lemma page_request_well_sized st :
  rpp <= 100 -> 1 <= rpp -> total_fetched st < rw ->
  well_sized (page_request si rw rpp st).
Proof.
  intros Hhi Hlo Hlt. split; [done|]. split; [done|].
  unfold page_request, search_request. simpl params.
  rewrite take_of_params.
  eexists. split; [done|]. unfold page_size. lia.
Qed.

Lemma while_loop_requests fuel :
  rpp <= 100 -> 1 <= rpp ->
  forall st sent,
    exists new,
      snd (while_loop vendor fuel si rw rpp st sent) = (sent ++ new)%list
      /\ Forall well_sized new.
Proof.
  intros Hhi Hlo. induction fuel as [|fuel IH]; intros st sent; simpl;
    destruct (total_fetched st <? rw) eqn:Hc;
    try (exists []; by rewrite app_nil_r).
  unfold mbind, M_bind.
  destruct (loop_body_returns st sent) as (fl & st1 & items & -> & Hj & Ht).
  apply Z.ltb_lt in Hc.
  pose proof (page_request_well_sized st Hhi Hlo Hc) as Hreq.
  destruct fl.
  - eexists [_]. split; [done | by constructor].
  - destruct (IH st1 (sent ++ [page_request si rw rpp st])%list)
      as (new & -> & Hnew).
    exists (page_request si rw rpp st :: new). split.
    + by rewrite <- app_assoc.
    + by constructor.
Qed.

(** An iteration that goes on to the next one has fetched a page at least
    as long as asked for, and moves the offset by the length of that page:
    the next request skips that many more records. *)
Theorem next_page_offset st sent st1 sent1 :
  loop_body vendor si rw rpp st sent = (Ok (Next, st1), sent1) ->
  exists jobs_batch n,
    fetch_batch vendor si (page_size rw rpp st) (results_to_skip st) sent
    = (Ok (Some jobs_batch), sent1)
    /\ py_len jobs_batch = Ok n
    /\ page_size rw rpp st <= n
    /\ results_to_skip st1 = results_to_skip st + n
    /\ params (page_request si rw rpp st1) !! "resultsToSkip"
       = Some (VInt (results_to_skip st + n)).
Proof.
  unfold loop_body, mbind, M_bind.
  destruct (fetch_batch _ _ _ _ _) as [[[jobs_batch|]|e] s] eqn:Hf;
    unfold mret, M_ret; try discriminate.
  destruct (truthy jobs_batch); simpl; [|discriminate].
  unfold lift. destruct (py_iter jobs_batch) as [items|e]; [|discriminate].
  destruct (py_len jobs_batch) as [n|e] eqn:Hn; [|discriminate].
  destruct (n <? _) eqn:Hlt; [discriminate|].
  intros [= <- <-]. exists jobs_batch, n. apply Z.ltb_ge in Hlt.
  repeat split; try done.
  - simpl. by rewrite for_job_data_skip.
  - rewrite skip_of_params. simpl. by rewrite for_job_data_skip.
Qed.

End Loop.

(** A response whose body is neither a list nor an object with a [results]
    field is taken as an empty page, not as a failure. *)
Theorem unexpected_shape_is_empty_page keywords location_name distance take
    skip is_remote job_type hours_old sent status data :
  vendor sent (search_request keywords location_name distance take skip
                 is_remote job_type hours_old)
  = Ok {| status_code := status; body := Some data |} ->
  status < 400 ->
  match data with
  | JObj fields => lookup_field "results" fields = None
  | JArr _ => False
  | _ => True
  end ->
  fst (_fetch_jobs vendor keywords location_name distance take skip is_remote
         job_type hours_old sent) = Ok (Some (JArr [])).
Proof.
  intros Hv Hs Hd.
  unfold _fetch_jobs, try_exceptM, _fetch_jobs_try, session_get, mbind, M_bind,
    lift, search_request in *.
  rewrite Hv. unfold raise_for_status; simpl.
  assert ((400 <=? status) = false) as -> by lia. simpl.
  destruct data; try done. by rewrite Hd.
Qed.

(** *** [scrape] *)

Lemma scrape_returns fuel si sent :
  exists r sent', scrape vendor fuel si sent = (Ok r, sent').
Proof.
  unfold scrape, mbind, M_bind.
  destruct (while_loop_returns si (or_default (results_wanted si) 15)
              (Z.min 100 (or_default (results_wanted si) 15)) fuel
              (initial si) sent) as (r & sent' & ->).
  by eexists _, _.
Qed.

Lemma scrape_Some fuel si sent resp sent' :
  scrape vendor fuel si sent = (Ok (Some resp), sent') ->
  exists st,
    while_loop vendor fuel si (or_default (results_wanted si) 15)
      (Z.min 100 (or_default (results_wanted si) 15)) (initial si) sent
    = (Ok (Some st), sent')
    /\ jobs resp = job_list st.
Proof.
  unfold scrape, mbind, M_bind.
  destruct (while_loop _ _ _ _ _ _ _) as [[[st|]|e] s]; simpl;
    unfold mret, M_ret; try discriminate.
  intros [= <- <-]. eauto.
Qed.

Lemma scrape_advances si sent0 k st sent fuel st' sent' :
  let rw := or_default (results_wanted si) 15 in
  advances vendor si rw (Z.min 100 rw) k (initial si) sent0 st sent ->
  while_loop vendor fuel si rw (Z.min 100 rw) st sent
  = (Ok (Some st'), sent') ->
  scrape vendor (k + fuel) si sent0
  = (Ok (Some {| jobs := job_list st' |}), sent').
Proof.
  intros rw Ha Hw. subst rw. unfold scrape, mbind, M_bind. cbv zeta.
  by rewrite (while_loop_advances _ _ _ _ _ _ _ _ fuel Ha), Hw.
Qed.

(** C1, as the code has it.  The postings [scrape] returns are at most the
    effective wanted count: [results_wanted] when it is a positive integer,
    15 when it is unset or 0, and none at all when it is negative. *)
Theorem scrape_at_most_wanted fuel si sent resp sent' :
  scrape vendor fuel si sent = (Ok (Some resp), sent') ->
  Z.of_nat (length (jobs resp))
  <= Z.max 0 (or_default (results_wanted si) 15).
Proof.
  intros Hs. destruct (scrape_Some _ _ _ _ _ Hs) as (st & Hw & ->).
  set (rw := or_default (results_wanted si) 15) in *.
  pose proof (while_loop_invariant si rw (Z.min 100 rw)
    (fun jl tf => Z.of_nat (length jl) = tf /\ tf <= Z.max 0 rw)) as Hinv.
  simpl in Hinv. eapply Hinv in Hw as [Hlen Hle]; [lia | | simpl; lia].
  intros st0 items [Hl Hb] Hlt. split.
  - by apply for_job_data_count.
  - pose proof (for_job_data_bound _ items _ Hlt). lia.
Qed.

(** C2.  A posting that [_parse_job] returns has a non-empty title; a record
    whose [jobTitle] is absent (read as [""]), blank after trimming, or not
    text at all is dropped: [_parse_job] returns [None] for it; and every
    posting [scrape] returns has a non-empty title. *)
Theorem emitted_title_nonempty :
  (forall job_data p, _parse_job job_data = Ok (Some p) -> title p <> "")
  /\ (forall job_data,
        (forall s, dict_get job_data "jobTitle" (JStr "") = Ok (JStr s) ->
                   strip s = "") ->
        _parse_job job_data = Ok None)
  /\ (forall fuel si sent resp sent',
        scrape vendor fuel si sent = (Ok (Some resp), sent') ->
        Forall (fun p => title p <> "") (jobs resp)).
Proof.
  split; [|split].
  - apply emitted_title.
  - apply blank_title_dropped.
  - intros fuel si sent resp sent' Hs.
    destruct (scrape_Some _ _ _ _ _ Hs) as (st & Hw & ->).
    eapply (while_loop_invariant si _ _
              (fun jl _ => Forall (fun p => title p <> "") jl))
      in Hw; [done| |by constructor].
    intros st0 items Hst _. by apply for_job_data_titles.
Qed.

(** C3.  When, after [k] full iterations, the page fetched is shorter than
    the page size asked for, [scrape] returns, for every fuel above [k], what
    was accumulated (the short page included); the request for that page is
    the last one sent. *)
Theorem short_page_ends_scrape si sent0 k st sent jobs_batch sent1 n :
  let rw := or_default (results_wanted si) 15 in
  let rpp := Z.min 100 rw in
  advances vendor si rw rpp k (initial si) sent0 st sent ->
  total_fetched st < rw ->
  fetch_batch vendor si (page_size rw rpp st) (results_to_skip st) sent
  = (Ok (Some jobs_batch), sent1) ->
  py_len jobs_batch = Ok n ->
  n < page_size rw rpp st ->
  exists items,
    py_iter jobs_batch = Ok items
    /\ forall fuel,
         scrape vendor (k + S fuel) si sent0
         = (Ok (Some {| jobs := job_list (for_job_data rw items st) |}),
            (sent ++ [page_request si rw rpp st])%list).
Proof.
  intros rw rpp Ha Hlt Hf Hn Hshort.
  destruct (loop_body_short_page _ _ _ _ _ _ _ _ Hf Hn Hshort)
    as (items & Hi & Hb).
  exists items. split; [done|]. intros fuel.
  apply (scrape_advances _ _ _ _ _ _ _ _ Ha).
  by apply while_loop_break.
Qed.

(** C7.  When, after [k] full iterations, the transport fails or the vendor
    answers with an HTTP error status, [_fetch_jobs] returns [None] (which is
    not the empty list), and [scrape] returns, without raising, the postings
    accumulated before; the failed request is the last one sent. *)
Theorem transport_error_ends_scrape si sent0 k st sent :
  let rw := or_default (results_wanted si) 15 in
  let rpp := Z.min 100 rw in
  advances vendor si rw rpp k (initial si) sent0 st sent ->
  total_fetched st < rw ->
  transport_or_http_error (vendor sent (page_request si rw rpp st)) = true ->
  fetch_batch vendor si (page_size rw rpp st) (results_to_skip st) sent
  = (Ok None, (sent ++ [page_request si rw rpp st])%list)
  /\ (None : option json) <> Some (JArr [])
  /\ forall fuel,
       scrape vendor (k + S fuel) si sent0
       = (Ok (Some {| jobs := job_list st |}),
          (sent ++ [page_request si rw rpp st])%list).
Proof.
  intros rw rpp Ha Hlt Herr.
  assert (fetch_batch vendor si (page_size rw rpp st) (results_to_skip st) sent
          = (Ok None, (sent ++ [page_request si rw rpp st])%list)) as Hf.
  { destruct (_fetch_jobs_try_error _ _ _ _ _ _ _ _ _ Herr)
      as (e & sent' & Hb & _).
    pose proof (_fetch_jobs_try_sends (search_term si) (location si)
      (or_default (distance si) 10) (page_size rw rpp st) (results_to_skip st)
      (is_remote si) (job_type si) (hours_old si) sent) as Hs.
    rewrite Hb in Hs. simpl in Hs. subst sent'.
    by apply _fetch_jobs_caught in Hb. }
  split; [done|]. split; [done|]. intros fuel.
  apply (scrape_advances _ _ _ _ _ _ _ _ Ha).
  apply while_loop_break; [done|].
  unfold loop_body, mbind, M_bind. fold rw rpp. by rewrite Hf.
Qed.

(** C10.  [_fetch_jobs] never raises: it always returns, having sent one
    request; whatever exception its [try] block raises, from the transport,
    the status check, the JSON decoding or the handling of the decoded body,
    it returns [None]; and [scrape] never raises. *)
Theorem fetch_page_never_raises :
  (forall keywords location_name distance take skip is_remote job_type
          hours_old sent,
      exists r,
        _fetch_jobs vendor keywords location_name distance take skip is_remote
          job_type hours_old sent
        = (Ok r, (sent ++ [search_request keywords location_name distance take
                             skip is_remote job_type hours_old])%list))
  /\ (forall keywords location_name distance take skip is_remote job_type
             hours_old sent e sent',
        _fetch_jobs_try vendor keywords location_name distance take skip
          is_remote job_type hours_old sent = (Raise e, sent') ->
        _fetch_jobs vendor keywords location_name distance take skip is_remote
          job_type hours_old sent = (Ok None, sent'))
  /\ (forall fuel si sent,
        exists r sent', scrape vendor fuel si sent = (Ok r, sent')).
Proof.
  split; [|split].
  - intros. apply _fetch_jobs_returns.
  - intros. by eapply _fetch_jobs_caught.
  - intros. apply scrape_returns.
Qed.

(** Every request [scrape] sends goes to the search endpoint with the fixed
    timeout and asks for between 1 and 100 records. *)
Theorem every_request_well_sized fuel si sent :
  exists new,
    snd (scrape vendor fuel si sent) = (sent ++ new)%list
    /\ Forall well_sized new.
Proof.
  unfold scrape, mbind, M_bind. cbv zeta.
  set (rw := or_default (results_wanted si) 15).
  assert (exists new,
    snd (while_loop vendor fuel si rw (Z.min 100 rw) (initial si) sent)
    = (sent ++ new)%list /\ Forall well_sized new) as (new & Hs & Hnew).
  { destruct (Z_le_gt_dec rw 0) as [Hle|Hgt].
    - exists []. split; [|done]. rewrite app_nil_r.
      destruct fuel; simpl; by (destruct (0 <? rw) eqn:Hc; [lia|]).
    - apply while_loop_requests; lia. }
  exists new. split; [|done].
  destruct (while_loop _ _ _ _ _ _ _) as [[st|e] s]; simpl in *; done.
Qed.

End Pagination.

(** ** Sample runs *)

(** C1 as stated fails: with [results_wanted = 0] the default of 15 applies
    and a posting is returned. *)
Lemma zero_wanted_returns_a_posting :
  exists p sent',
    results_wanted (Sample.wanted (Some 0)) = Some 0
    /\ @scrape Sample.runtime (Sample.always (Sample.page [Sample.titled "Dev"]))
         1 (Sample.wanted (Some 0)) []
       = (Ok (Some {| jobs := [p] |}), sent')
    /\ ~ (Z.of_nat (length [p]) <= 0).
Proof.
  eexists _, _. split; [reflexivity|].
  split; [vm_compute; reflexivity | simpl; lia].
Qed.

(** Two postings wanted, from a vendor whose pages hold four records, two
    of them with a title. *)
Lemma scrape_at_most_wanted_witness :
  exists resp sent',
    @scrape Sample.runtime (Sample.always Sample.full_page) 1
      (Sample.wanted (Some 2)) []
    = (Ok (Some resp), sent')
    /\ List.map title (jobs resp) = ["Dev"; "Ops"]
    /\ Z.of_nat (length (jobs resp)) <= 2.
Proof.
  eexists _, _. split; [vm_compute; reflexivity|].
  split; [reflexivity|].
  eapply (@scrape_at_most_wanted Sample.runtime
            (Sample.always Sample.full_page) 1 (Sample.wanted (Some 2)) []).
  vm_compute; reflexivity.
Defined.

(** Records with a title, a blank title, no title and a [null] title, and
    a run over pages that mix them. *)
Lemma emitted_title_nonempty_witness :
  (exists p,
      @_parse_job Sample.runtime (Sample.titled " Dev ") = Ok (Some p)
      /\ title p = "Dev" /\ title p <> "")
  /\ @_parse_job Sample.runtime (Sample.titled "  ") = Ok None
  /\ @_parse_job Sample.runtime (JObj [("jobId", JInt 1)]) = Ok None
  /\ @_parse_job Sample.runtime (JObj [("jobTitle", JNull)]) = Ok None
  /\ exists resp sent',
       @scrape Sample.runtime (Sample.always Sample.full_page) 2
         (Sample.wanted (Some 4)) []
       = (Ok (Some resp), sent')
       /\ Forall (fun p => title p <> "") (jobs resp).
Proof.
  pose proof (@emitted_title_nonempty Sample.runtime
                (Sample.always Sample.full_page)) as (Hp & Hd & Hs).
  split; [|split; [|split; [|split]]].
  - eexists. split; [vm_compute; reflexivity|]. split; [reflexivity|].
    apply (Hp (Sample.titled " Dev ")). vm_compute; reflexivity.
  - apply Hd. intros s Hg. vm_compute in Hg. by injection Hg as <-.
  - apply Hd. intros s Hg. vm_compute in Hg. by injection Hg as <-.
  - apply Hd. intros s Hg. vm_compute in Hg. discriminate Hg.
  - eexists _, _. split; [vm_compute; reflexivity|].
    eapply (Hs 2%nat (Sample.wanted (Some 4)) []). vm_compute; reflexivity.
Defined.

(** Four postings wanted: a full first page with two titles, then a page of
    one record where two were asked for. *)
Lemma short_page_ends_scrape_witness :
  exists resp sent',
    (forall fuel,
        @scrape Sample.runtime
          (Sample.first_then Sample.full_page
             (Sample.page [Sample.titled "QA"]))
          (1 + S fuel) (Sample.wanted (Some 4)) []
        = (Ok (Some resp), sent'))
    /\ List.map title (jobs resp) = ["Dev"; "Ops"; "QA"]
    /\ length sent' = 2%nat.
Proof.
  pose (vendor := Sample.first_then Sample.full_page
                    (Sample.page [Sample.titled "QA"])).
  eassert (@advances Sample.runtime vendor (Sample.wanted (Some 4)) 4 4 1
             (initial (Sample.wanted (Some 4))) [] _ _) as Ha.
  { eapply advances_S; [reflexivity | vm_compute; reflexivity |].
    apply advances_O. }
  pose proof (@short_page_ends_scrape Sample.runtime vendor
                (Sample.wanted (Some 4)) [] 1) as Hshort.
  cbv zeta in Hshort.
  edestruct Hshort as (items & Hi & Hs);
    [exact Ha | reflexivity | vm_compute; reflexivity | reflexivity
    | reflexivity |].
  injection Hi as <-.
  eexists _, _. split; [exact Hs|]. split; vm_compute; reflexivity.
Defined.

(** Four postings wanted: a full first page with two titles, then a
    connection error. *)
Lemma transport_error_ends_scrape_witness :
  exists resp sent',
    (forall fuel,
        @scrape Sample.runtime
          (Sample.first_then Sample.full_page
             (Raise (RequestException "ConnectionError")))
          (1 + S fuel) (Sample.wanted (Some 4)) []
        = (Ok (Some resp), sent'))
    /\ List.map title (jobs resp) = ["Dev"; "Ops"]
    /\ length sent' = 2%nat.
Proof.
  pose (vendor := Sample.first_then Sample.full_page
                    (Raise (RequestException "ConnectionError"))).
  eassert (@advances Sample.runtime vendor (Sample.wanted (Some 4)) 4 4 1
             (initial (Sample.wanted (Some 4))) [] _ _) as Ha.
  { eapply advances_S; [reflexivity | vm_compute; reflexivity |].
    apply advances_O. }
  pose proof (@transport_error_ends_scrape Sample.runtime vendor
                (Sample.wanted (Some 4)) [] 1) as Hstop.
  cbv zeta in Hstop.
  edestruct Hstop as (_ & _ & Hs); [exact Ha | reflexivity | reflexivity |].
  eexists _, _. split; [exact Hs|]. split; vm_compute; reflexivity.
Defined.

(** Failures other than transport errors: an exception of another class, a
    body that is not JSON, and [results] fields that have no length. *)
Lemma fetch_page_never_raises_witness :
  let fetch reply :=
    fst (@_fetch_jobs (Sample.always reply) (Some "python") None 10 15 0
           false None None []) in
  fetch (Raise (OtherException "MemoryError")) = Ok None
  /\ fetch (Ok {| status_code := 200; body := None |}) = Ok None
  /\ fetch (Ok {| status_code := 200;
                  body := Some (JObj [("results", JNull)]) |}) = Ok None
  /\ fetch (Ok {| status_code := 200;
                  body := Some (JObj [("results", JInt 3)]) |}) = Ok None.
Proof.
  assert (forall reply e sent',
    @_fetch_jobs_try (Sample.always reply) (Some "python") None 10 15 0 false
      None None [] = (Raise e, sent') ->
    fst (@_fetch_jobs (Sample.always reply) (Some "python") None 10 15 0
           false None None []) = Ok None) as Hcaught.
  { intros reply e sent' Hb.
    pose proof (@fetch_page_never_raises Sample.runtime (Sample.always reply))
      as (_ & Hc & _).
    by rewrite (Hc _ _ _ _ _ _ _ _ _ _ _ Hb). }
  repeat split; (eapply Hcaught; vm_compute; reflexivity).
Defined.

(** A first page of four records where four were asked for. *)
Lemma next_page_offset_witness :
  exists st1 sent1,
    @loop_body Sample.runtime (Sample.always Sample.full_page)
      (Sample.wanted (Some 4)) 4 4 (initial (Sample.wanted (Some 4))) []
    = (Ok (Next, st1), sent1)
    /\ results_to_skip st1 = 4
    /\ params (page_request (Sample.wanted (Some 4)) 4 4 st1)
         !! "resultsToSkip" = Some (VInt 4).
Proof.
  eexists _, _. split; [vm_compute; reflexivity|].
  edestruct (@next_page_offset Sample.runtime (Sample.always Sample.full_page)
               (Sample.wanted (Some 4)) 4 4
               (initial (Sample.wanted (Some 4))) [])
    as (jobs_batch & n & Hf & Hn & _ & Hskip & Hparam);
    [vm_compute; reflexivity|].
  vm_compute in Hf. injection Hf as <-.
  vm_compute in Hn. injection Hn as <-.
  split; [exact Hskip | exact Hparam].
Defined.

(** An object without a [results] field. *)
Lemma unexpected_shape_is_empty_page_witness :
  fst (@_fetch_jobs
         (Sample.always
            (Ok {| status_code := 200;
                   body := Some (JObj [("error", JStr "quota")]) |}))
         (Some "python") None 10 15 0 false None None [])
  = Ok (Some (JArr [])).
Proof.
  apply (@unexpected_shape_is_empty_page
           (Sample.always
              (Ok {| status_code := 200;
                     body := Some (JObj [("error", JStr "quota")]) |}))
           (Some "python") None 10 15 0 false None None [] 200
           (JObj [("error", JStr "quota")]));
    [reflexivity | reflexivity | reflexivity].
Defined.

(** Against [Sample.blank_pages] an iteration fetches a full page, keeps
    nothing of it and goes on. *)
Lemma blank_pages_step st sent :
  total_fetched st = 0 ->
  exists st1 sent1,
    @loop_body Sample.runtime Sample.blank_pages (Sample.wanted (Some 1)) 1 1
      st sent
    = (Ok (Next, st1), sent1)
    /\ total_fetched st1 = 0.
Proof.
  intros H0.
  unfold loop_body, fetch_batch, _fetch_jobs, try_exceptM, _fetch_jobs_try,
    session_get, page_size, mbind, M_bind, lift, mret, M_ret.
  rewrite H0. simpl. eexists _, _. split; [reflexivity | exact H0].
Qed.

(** The pagination loop has no bound of its own: against a vendor whose
    every page is full and holds no record with a title, [scrape] has not
    returned after any number of iterations. *)
Theorem blank_pages_never_end fuel :
  fst (@scrape Sample.runtime Sample.blank_pages fuel
         (Sample.wanted (Some 1)) [])
  = Ok None.
Proof.
  unfold scrape, mbind, M_bind. cbv zeta.
  change (or_default (results_wanted (Sample.wanted (Some 1))) 15) with 1.
  change (Z.min 100 1) with 1.
  assert (forall st sent, total_fetched st = 0 ->
    fst (@while_loop Sample.runtime Sample.blank_pages fuel
           (Sample.wanted (Some 1)) 1 1 st sent)
    = Ok None) as Hloop.
  { induction fuel as [|fuel IH]; intros st sent H0; simpl; rewrite H0; simpl;
      [done|].
    unfold mbind, M_bind.
    destruct (blank_pages_step st sent H0) as (st1 & sent1 & -> & H1).
    by apply IH. }
  specialize (Hloop (initial (Sample.wanted (Some 1))) [] eq_refl).
  destruct (while_loop _ _ _ _ _ _ _) as [[r|e] s]; simpl in Hloop;
    [injection Hloop as -> | discriminate].
  reflexivity.
Qed.

(** ** [util.py]: job ids in URLs and the shape of API keys *)

Lemma str_app_cons c (a b : string) : String c a +:+ b = String c (a +:+ b).
Proof. reflexivity. Qed.

Lemma str_app_nil_l (a : string) : "" +:+ a = a.
Proof. reflexivity. Qed.

Lemma str_app_assoc (a b c : string) : (a +:+ b) +:+ c = a +:+ (b +:+ c).
Proof.
  induction a as [|x a IH]; [done|]. by rewrite !str_app_cons, IH.
Qed.

Lemma str_app_nil_r (a : string) : a +:+ "" = a.
Proof. induction a as [|x a IH]; [done|]. by rewrite str_app_cons, IH. Qed.

Lemma take_class_Some p n s st s' st' :
  take_class p n s st = Some (s', st') ->
  exists a, s = a +:+ s' /\ String.length a = n /\ all_chars p a = true
            /\ st' = consume_all a st.
Proof.
  revert s st. induction n as [|n IH]; intros s st; simpl.
  - intros [= <- <-]. by exists "".
  - destruct s as [|c s]; [discriminate|].
    destruct (p c) eqn:Hc; [|discriminate].
    intros H. destruct (IH _ _ H) as (a & -> & <- & Ha & ->).
    exists (String c a). simpl. by rewrite Hc, Ha.
Qed.

Lemma take_class_app p a s' st :
  all_chars p a = true ->
  take_class p (String.length a) (a +:+ s') st = Some (s', consume_all a st).
Proof.
  revert st. induction a as [|c a IH]; intros st; simpl; [done|].
  intros [Hc Ha]%andb_prop. rewrite Hc. by apply IH.
Qed.

Lemma match_literal_app l rest s st :
  match_items (literal l ++ rest) (l +:+ s) st
  = match_items rest s (consume_all l st).
Proof.
  revert st. induction l as [|c l IH]; intros st; simpl; [done|].
  by rewrite Ascii.eqb_refl, IH.
Qed.

Lemma match_literal_inv l rest s st r :
  match_items (literal l ++ rest) s st = Some r ->
  exists s', s = l +:+ s' /\ match_items rest s' (consume_all l st) = Some r.
Proof.
  revert s st. induction l as [|c l IH]; intros s st; simpl; [eauto|].
  destruct s as [|c' s]; [discriminate|].
  destruct (Ascii.eqb c c') eqn:Hc; [|discriminate].
  apply Ascii.eqb_eq in Hc as <-.
  intros H. destruct (IH _ _ H) as (s' & -> & Hr). eauto.
Qed.

Lemma consume_all_app a b st :
  consume_all (a +:+ b) st = consume_all b (consume_all a st).
Proof. revert st. induction a as [|c a IH]; intros st; simpl; [done | apply IH]. Qed.

Lemma consume_all_group d st :
  group_open (consume_all d st)
  = match group_open st with Some g => Some (g +:+ d) | None => None end.
Proof.
  revert st. induction d as [|c d IH]; intros st; simpl.
  - destruct (group_open st); [by rewrite str_app_nil_r | done].
  - rewrite IH. simpl. destruct (group_open st); [|done].
    by rewrite str_app_assoc.
Qed.

Lemma consume_all_group1 d st : group1 (consume_all d st) = group1 st.
Proof. revert st. induction d as [|c d IH]; intros st; simpl; [done | by rewrite IH]. Qed.

(** [p+] before a continuation that always matches takes the longest run. *)
Lemma take_plus_longest {R} p (k : string -> re_state -> option R) d t st :
  (forall s st, is_Some (k s st)) ->
  d <> "" -> all_chars p d = true -> starts_with p t = false ->
  take_plus p k (d +:+ t) st = k t (consume_all d st).
Proof.
  intros Hk. revert st. induction d as [|c d IH]; intros st Hd Hp Ht; [done|].
  simpl in *. apply andb_prop in Hp as [Hc Hp]. rewrite Hc.
  destruct d as [|c' d].
  - simpl. destruct t as [|x t]; simpl in *; [done|]. by rewrite Ht.
  - rewrite IH by done. by destruct (Hk t (consume_all (String c' d) (consume c st))) as [r ->].
Qed.

Lemma take_plus_inv {R} p (k : string -> re_state -> option R) s st r :
  (forall s st, is_Some (k s st)) ->
  take_plus p k s st = Some r ->
  exists d t, s = d +:+ t /\ d <> "" /\ all_chars p d = true
              /\ starts_with p t = false /\ k t (consume_all d st) = Some r.
Proof.
  intros Hk. revert st. induction s as [|c s IH]; intros st; simpl; [discriminate|].
  destruct (p c) eqn:Hc; [|discriminate].
  destruct (take_plus p k s (consume c st)) as [r'|] eqn:Hp.
  - intros [= ->]. destruct (IH _ Hp) as (d & t & -> & Hd & Ha & Ht & Hr).
    exists (String c d), t. simpl. by rewrite Hc, Ha.
  - intros Hr. exists (String c ""), s. simpl. rewrite Hc. repeat split; try done.
    destruct s as [|x s]; [done|]. simpl in *.
    destruct (p x) eqn:Hx; [|done].
    destruct (take_plus p k s _) eqn:Hs; [discriminate|].
    by destruct (Hk s (consume x (consume c st))) as [? Hk'];
      rewrite Hk' in Hp.
Qed.

Lemma match_job_id_inv s st r :
  match_items job_id_pattern s st = Some r ->
  exists d t, s = "/jobs/" +:+ d +:+ t /\ d <> ""
              /\ all_chars isdigit d = true
              /\ starts_with isdigit t = false
              /\ group1 r = Some d.
Proof.
  unfold job_id_pattern. intros H.
  apply match_literal_inv in H as (s' & -> & H).
  change (match_items [GroupOpen; ClsPlus isdigit; GroupClose] s' ?x)
    with (take_plus isdigit (match_items [GroupClose]) s'
            {| at_start := at_start x; group_open := Some "";
               group1 := group1 x |}) in H.
  apply take_plus_inv in H as (d & t & -> & Hd & Ha & Ht & Hr);
    [|by eexists].
  exists d, t. repeat split; try done.
  simpl in Hr. injection Hr as <-. simpl.
  by rewrite consume_all_group.
Qed.

Lemma match_job_id_app d t st :
  d <> "" -> all_chars isdigit d = true -> starts_with isdigit t = false ->
  exists r, match_items job_id_pattern ("/jobs/" +:+ d +:+ t) st = Some r
            /\ group1 r = Some d.
Proof.
  intros Hd Ha Ht. unfold job_id_pattern. rewrite match_literal_app.
  change (match_items [GroupOpen; ClsPlus isdigit; GroupClose] ?s ?x)
    with (take_plus isdigit (match_items [GroupClose]) s
            {| at_start := at_start x; group_open := Some "";
               group1 := group1 x |}).
  rewrite take_plus_longest by (done || by eexists).
  eexists. split; [reflexivity|]. simpl. by rewrite consume_all_group.
Qed.

Lemma search_from_None_head items c s b :
  match_items items (String c s) (re_start b) = None ->
  search_from items (String c s) b = search_from items s false.
Proof. intros H. simpl. by rewrite H. Qed.

Lemma search_job_id_no_slash s b :
  all_chars not_slash s = true -> search_from job_id_pattern s b = None.
Proof.
  revert b. induction s as [|c s IH]; intros b Hs; [done|].
  simpl in Hs. apply andb_prop in Hs as [Hc Hs].
  rewrite search_from_None_head; [by apply IH|].
  unfold job_id_pattern.
  change (literal "/jobs/") with (Lit "/" :: literal "jobs/").
  cbn [app match_items]. unfold not_slash in Hc.
  rewrite Ascii.eqb_sym in Hc. by destruct (Ascii.eqb "/" c).
Qed.

Lemma search_job_id_sound u b m :
  search_from job_id_pattern u b = Some m ->
  exists d before after,
    group1 m = Some d /\ d <> "" /\ all_chars isdigit d = true
    /\ u = before +:+ "/jobs/" +:+ d +:+ after
    /\ starts_with isdigit after = false.
Proof.
  revert b. induction u as [|c u IH]; intros b.
  - simpl. discriminate.
  - unfold search_from; fold search_from.
    destruct (match_items job_id_pattern (String c u) (re_start b))
      as [r|] eqn:Hm.
    + intros [= <-].
      destruct (match_job_id_inv _ _ _ Hm) as (d & t & Hu & Hd & Ha & Ht & Hr).
      by exists d, "", t.
    + intros Hg.
      destruct (IH _ Hg) as (d & before & after & Hr & Hd & Ha & -> & Ht).
      by exists d, (String c before), after.
Qed.

(** A text splits into its longest head of characters in [p] and the rest. *)
Lemma longest_run p s :
  exists d t, s = d +:+ t /\ all_chars p d = true /\ starts_with p t = false
              /\ (starts_with p s = true -> d <> "").
Proof.
  induction s as [|c s (d & t & -> & Hd & Ht & _)].
  - by exists "", "".
  - destruct (p c) eqn:Hc.
    + exists (String c d), t. simpl. by rewrite Hc, Hd.
    + exists "", (String c (d +:+ t)). simpl. by rewrite Hc.
Qed.

Lemma search_job_id_complete before c after b :
  isdigit c = true ->
  is_Some (search_from job_id_pattern
             (before +:+ "/jobs/" +:+ String c after) b).
Proof.
  intros Hc. revert b. induction before as [|x before IH]; intros b.
  - destruct (longest_run isdigit (String c after))
      as (d & t & Hs & Hd & Ht & Hne).
    rewrite str_app_nil_l, Hs.
    destruct (match_job_id_app d t (re_start b) (Hne Hc) Hd Ht)
      as (r & Hr & _).
    assert (exists u, "/jobs/" +:+ d +:+ t = String "/" u) as [u Hu]
      by (by eexists).
    rewrite Hu in *. unfold search_from; fold search_from. by rewrite Hr.
  - rewrite str_app_cons. unfold search_from; fold search_from.
    destruct (match_items _ _ _); [done | apply IH].
Qed.

(** [extract_job_id_from_url] finds an id exactly in the URLs that hold
    "/jobs/" followed by a digit; the id is a non-empty run of digits that
    follows "/jobs/" and is not followed by a digit. *)
Theorem extract_job_id_outcomes job_url :
  match extract_job_id_from_url job_url with
  | Some job_id =>
      job_id <> "" /\ all_chars isdigit job_id = true
      /\ exists before after,
           job_url = before +:+ "/jobs/" +:+ job_id +:+ after
           /\ starts_with isdigit after = false
  | None =>
      forall before c after,
        job_url = before +:+ "/jobs/" +:+ String c after -> isdigit c = false
  end.
Proof.
  unfold extract_job_id_from_url, re_search.
  destruct (search_from job_id_pattern job_url true) as [m|] eqn:Hs.
  - destruct (search_job_id_sound _ _ _ Hs)
      as (d & before & after & -> & Hd & Ha & Hu & Ht). eauto 10.
  - intros before c after ->. destruct (isdigit c) eqn:Hc; [|done].
    destruct (search_job_id_complete before c after true Hc) as [m Hm].
    congruence.
Qed.

Lemma extract_reed_job_url job_id after :
  job_id <> "" -> all_chars isdigit job_id = true ->
  starts_with isdigit after = false ->
  extract_job_id_from_url
    ("https://www.reed.co.uk/jobs/" +:+ job_id +:+ after)
  = Some job_id.
Proof.
  intros Hd Ha Ht. unfold extract_job_id_from_url, re_search.
  assert (forall x,
    search_from job_id_pattern ("https://www.reed.co.uk/jobs/" +:+ x) true
    = match match_items job_id_pattern ("/jobs/" +:+ x) (re_start false) with
      | Some st => Some st
      | None => search_from job_id_pattern ("jobs/" +:+ x) false
      end) as -> by reflexivity.
  destruct (match_job_id_app job_id after (re_start false) Hd Ha Ht)
    as (r & -> & Hr).
  done.
Qed.

(** The id of a job URL of the vendor's site is found again: from
    [https://www.reed.co.uk/jobs/] followed by a non-empty run of digits and
    anything that does not go on with a digit, [extract_job_id_from_url]
    returns that run. *)
Theorem extract_job_id_of_reed_url job_id after :
  job_id <> "" -> all_chars isdigit job_id = true ->
  starts_with isdigit after = false ->
  extract_job_id_from_url
    ("https://www.reed.co.uk/jobs/" +:+ job_id +:+ after)
  = Some job_id.
Proof. apply extract_reed_job_url. Qed.

Lemma fold_case_hex c : fold_case hex_lower c = is_hex c.
Proof. destruct c as [[] [] [] [] [] [] [] []]; reflexivity. Qed.

Lemma fold_case_hyphen c : fold_case (Ascii.eqb "-") c = Ascii.eqb "-" c.
Proof. destruct c as [[] [] [] [] [] [] [] []]; reflexivity. Qed.

Lemma all_chars_ext p q s :
  (forall c, p c = q c) -> all_chars p s = all_chars q s.
Proof. intros H. induction s as [|c s IH]; simpl; [done|]. by rewrite H, IH. Qed.

Lemma match_class_inv p n rest s st r :
  match_items (Cls p n :: rest) s st = Some r ->
  exists a s', s = a +:+ s' /\ String.length a = n /\ all_chars p a = true
               /\ match_items rest s' (consume_all a st) = Some r.
Proof.
  simpl. destruct (take_class p n s st) as [[s' st']|] eqn:Ht; [|discriminate].
  intros Hr. destruct (take_class_Some _ _ _ _ _ _ Ht) as (a & -> & Hl & Ha & ->).
  eauto 10.
Qed.

Lemma match_class_app p n a rest s st :
  String.length a = n -> all_chars p a = true ->
  match_items (Cls p n :: rest) (a +:+ s) st
  = match_items rest s (consume_all a st).
Proof. intros <- Ha. simpl. by rewrite take_class_app. Qed.

Lemma hyphen_run a :
  String.length a = 1%nat -> all_chars (fold_case (Ascii.eqb "-")) a = true ->
  a = "-".
Proof.
  destruct a as [|c [|]]; try discriminate. intros _. simpl.
  rewrite andb_true_r, fold_case_hyphen. by intros ->%Ascii.eqb_eq.
Qed.

Lemma match_eos_inv s st r :
  match_items [Eos] s st = Some r -> s = "" \/ s = String newline "".
Proof.
  simpl. destruct (is_empty s) eqn:He.
  - destruct s; [auto | discriminate].
  - simpl. destruct (String.eqb s (String newline "")) eqn:Hn; [|discriminate].
    apply String.eqb_eq in Hn. auto.
Qed.

Lemma match_bos rest s :
  match_items (Bos :: rest) s (re_start true)
  = match_items rest s (re_start true).
Proof. reflexivity. Qed.

(** [validate_reed_api_key] refuses a missing key and accepts exactly the
    texts in the 8-4-4-4-12 layout of hexadecimal digits of either case, and
    those texts followed by one newline: [$] also matches before a final
    newline. *)
Theorem validate_accepts_uuid_text :
  validate_reed_api_key None = false
  /\ forall key,
       validate_reed_api_key (Some key) = true <->
       uuid_shaped key
       \/ exists k, key = k +:+ String newline "" /\ uuid_shaped k.
Proof.
  split; [done|]. intros key.
  unfold validate_reed_api_key. split.
  - destruct (is_empty key); [discriminate|].
    destruct (re_match uuid_pattern key) as [r|] eqn:Hm; [|discriminate].
    intros _. unfold re_match, uuid_pattern, ignorecase in Hm. simpl map in Hm.
    rewrite match_bos in Hm.
    destruct (match_class_inv _ _ _ _ _ _ Hm) as (a & s1 & -> & La & Ha & H1).
    destruct (match_class_inv _ _ _ _ _ _ H1) as (h1 & s2 & -> & L1 & E1 & H2).
    destruct (match_class_inv _ _ _ _ _ _ H2) as (b & s3 & -> & Lb & Hb & H3).
    destruct (match_class_inv _ _ _ _ _ _ H3) as (h2 & s4 & -> & L2 & E2 & H4).
    destruct (match_class_inv _ _ _ _ _ _ H4) as (c & s5 & -> & Lc & Hc & H5).
    destruct (match_class_inv _ _ _ _ _ _ H5) as (h3 & s6 & -> & L3 & E3 & H6).
    destruct (match_class_inv _ _ _ _ _ _ H6) as (d & s7 & -> & Ld & Hd & H7).
    destruct (match_class_inv _ _ _ _ _ _ H7) as (h4 & s8 & -> & L4 & E4 & H8).
    destruct (match_class_inv _ _ _ _ _ _ H8) as (e & s9 & -> & Le & He & H9).
    rewrite (hyphen_run _ L1 E1), (hyphen_run _ L2 E2), (hyphen_run _ L3 E3),
      (hyphen_run _ L4 E4).
    repeat match goal with
    | H : all_chars (fold_case hex_lower) _ = true |- _ =>
        rewrite (all_chars_ext _ _ _ fold_case_hex) in H
    end.
    assert (uuid_shaped (a +:+ "-" +:+ b +:+ "-" +:+ c +:+ "-" +:+ d +:+ "-" +:+ e))
      as Hshape by (exists a, b, c, d, e; repeat split; done).
    destruct (match_eos_inv _ _ _ H9) as [-> | ->].
    + left. by rewrite str_app_nil_r.
    + right. eexists. split; [|exact Hshape]. by rewrite !str_app_assoc.
  - assert (forall k tail, uuid_shaped k ->
              tail = "" \/ tail = String newline "" ->
              is_Some (re_match uuid_pattern (k +:+ tail))) as Hmatch.
    { intros k tail (a & b & c & d & e & -> & [La Ha] & [Lb Hb] & [Lc Hc]
                     & [Ld Hd] & [Le He]) Htail.
      unfold re_match, uuid_pattern, ignorecase. simpl map.
      rewrite match_bos.
      repeat match goal with
      | H : all_chars is_hex _ = true |- _ =>
          rewrite <- (all_chars_ext _ _ _ fold_case_hex) in H
      end.
      rewrite !str_app_assoc.
      rewrite (match_class_app _ _ a) by done.
      rewrite (match_class_app _ _ "-") by done.
      rewrite (match_class_app _ _ b) by done.
      rewrite (match_class_app _ _ "-") by done.
      rewrite (match_class_app _ _ c) by done.
      rewrite (match_class_app _ _ "-") by done.
      rewrite (match_class_app _ _ d) by done.
      rewrite (match_class_app _ _ "-") by done.
      rewrite (match_class_app _ _ e) by done.
      destruct Htail as [-> | ->]; by eexists. }
    assert (forall k, uuid_shaped k -> is_empty k = false) as Hne.
    { intros k (a & b & c & d & e & -> & [La _] & _).
      destruct a; [discriminate | done]. }
    intros [Hk | (k & -> & Hk)].
    + rewrite (Hne _ Hk). destruct (Hmatch key "" Hk (or_introl eq_refl)) as [r Hr].
      rewrite str_app_nil_r in Hr. by rewrite Hr.
    + assert (is_empty (k +:+ String newline "") = false) as ->.
      { specialize (Hne _ Hk). by destruct k. }
      by destruct (Hmatch k _ Hk (or_intror eq_refl)) as [r ->].
Qed.

(** ** Base64 and UTF-8 *)

Lemma b64_index_char i :
  (i < 64)%N -> b64_index (b64_char i) = Some i /\ is_pad (b64_char i) = false.
Proof.
  intros Hi. rewrite <- (N2Nat.id i). assert (N.to_nat i < 64)%nat as Hn by lia.
  revert Hn. generalize (N.to_nat i). intros n Hn.
  do 64 (destruct n as [|n]; [by vm_compute|]). lia.
Qed.

Lemma byte_bound (c : ascii) : (N_of_ascii c < 256)%N.
Proof. apply N_ascii_bounded. Qed.

Lemma byte_of_N_of (c : ascii) : byte_of (N_of_ascii c) = c.
Proof. apply ascii_N_embedding. Qed.

Ltac euclid := zify; Z.to_euclidean_division_equations; lia.

Lemma b64decode_encode b : b64decode (b64encode b) = Some b.
Proof.
  assert (forall n b, (length b <= n)%nat -> b64decode (b64encode b) = Some b)
    as H; [|by apply (H (length b))].
  intros n. induction n as [n IH] using lt_wf_ind. intros bs Hn.
  destruct bs as [|b0 [|b1 [|b2 rest]]].
  - done.
  - pose proof (byte_bound b0).
    cbn [b64encode b64decode].
    set (n0 := (N_of_ascii b0 * 65536)%N).
    destruct (b64_index_char (n0 / 262144)) as [-> _]; [subst n0; euclid|].
    destruct (b64_index_char ((n0 / 4096) mod 64)) as [-> _]; [euclid|].
    simpl. do 2 f_equal. etrans; [|apply (byte_of_N_of b0)]. f_equal.
    subst n0. euclid.
  - pose proof (byte_bound b0). pose proof (byte_bound b1).
    cbn [b64encode b64decode].
    set (n0 := (N_of_ascii b0 * 65536 + N_of_ascii b1 * 256)%N).
    destruct (b64_index_char (n0 / 262144)) as [-> _]; [subst n0; euclid|].
    destruct (b64_index_char ((n0 / 4096) mod 64)) as [-> _]; [euclid|].
    destruct (b64_index_char ((n0 / 64) mod 64)) as [-> ->]; [euclid|].
    simpl. do 2 f_equal; [|f_equal].
    + etrans; [|apply (byte_of_N_of b0)]. f_equal. subst n0. euclid.
    + etrans; [|apply (byte_of_N_of b1)]. f_equal. subst n0. euclid.
  - pose proof (byte_bound b0). pose proof (byte_bound b1).
    pose proof (byte_bound b2).
    cbn [b64encode b64decode].
    set (n0 := (N_of_ascii b0 * 65536 + N_of_ascii b1 * 256 + N_of_ascii b2)%N).
    destruct (b64_index_char (n0 / 262144)) as [-> _]; [subst n0; euclid|].
    destruct (b64_index_char ((n0 / 4096) mod 64)) as [-> _]; [euclid|].
    destruct (b64_index_char ((n0 / 64) mod 64)) as [-> _]; [euclid|].
    destruct (b64_index_char (n0 mod 64)) as [-> ->]; [euclid|].
    simpl. rewrite (IH (length rest)); [|simpl in Hn; lia|done]. simpl.
    f_equal. f_equal; [|f_equal; [|f_equal]].
    + etrans; [|apply (byte_of_N_of b0)]. f_equal. subst n0. euclid.
    + etrans; [|apply (byte_of_N_of b1)]. f_equal. subst n0. euclid.
    + etrans; [|apply (byte_of_N_of b2)]. f_equal. subst n0. euclid.
Qed.

Lemma bytes_decode_encode s : bytes_decode (str_encode s) = Ok s.
Proof.
  induction s as [|c s IH]; [done|].
  assert (bytes_decode (str_encode (String c s))
          = String c <$> bytes_decode (str_encode s)) as ->.
  { destruct c as [[] [] [] [] [] [] [] []]; reflexivity. }
  by rewrite IH.
Qed.

Lemma b64_char_ascii i : (N_of_ascii (b64_char i) <? 128)%N = true.
Proof.
  unfold b64_char. generalize (N.to_nat i). intros n.
  do 64 (destruct n as [|n]; [reflexivity|]). reflexivity.
Qed.

Lemma bytes_decode_ascii b :
  Forall (fun c => (N_of_ascii c <? 128)%N = true) b ->
  bytes_decode b = Ok (string_of_list_ascii b).
Proof.
  induction 1 as [|c b Hc _ IH]; [done|]. simpl. by rewrite Hc, IH.
Qed.

Lemma b64encode_ascii b :
  Forall (fun c => (N_of_ascii c <? 128)%N = true) (b64encode b).
Proof.
  assert (forall n b, (length b <= n)%nat ->
    Forall (fun c => (N_of_ascii c <? 128)%N = true) (b64encode b)) as H;
    [|by apply (H (length b))].
  intros n. induction n as [n IH] using lt_wf_ind. intros bs Hn.
  destruct bs as [|b0 [|b1 [|b2 rest]]]; cbn [b64encode];
    repeat (constructor; [apply b64_char_ascii || reflexivity|]);
    try constructor.
  apply (IH (length rest)); [simpl in Hn; lia | done].
Qed.

Section Init.
Context `{Platform}.

Lemma __init___resolved proxies ca_cert user_agent api_key :
  __init__ proxies ca_cert user_agent api_key
  = let key := resolved_key api_key in
    if is_empty key then Raise ValueError
    else Ok (built proxies ca_cert user_agent key,
             if validate_reed_api_key (Some key) then []
             else [invalid_key_warning]).
Proof.
  assert (forall key (w : list string),
    (encoded_auth ← bytes_decode (b64encode (str_encode (key +:+ ":")));
     Ok ({| site := REED; proxies := proxies; ca_cert := ca_cert;
            user_agent := user_agent; api_key := key;
            session := {| headers :=
              <["User-Agent" := or_text user_agent "JobSpy-Reed-Scraper/1.0"]>
                (<["Authorization" := "Basic " +:+ encoded_auth]>
                   (create_session proxies ca_cert false true)) |} |}, w))
    = Ok (built proxies ca_cert user_agent key, w)) as Hok.
  { intros key w. by rewrite (bytes_decode_ascii _ (b64encode_ascii _)). }
  unfold resolved_key, __init__, or_else. cbv zeta.
  destruct api_key as [k|]; cbn [or_text].
  - destruct (is_empty k) eqn:Hk.
    + destruct (getenv "REED_API_KEY") as [e|]; cbn [or_text]; [|done].
      destruct (is_empty e) eqn:He; [by rewrite ?He|].
      rewrite Hok, He. by destruct (validate_reed_api_key (Some e)).
    + rewrite Hk, Hok. by destruct (validate_reed_api_key (Some k)).
  - destruct (getenv "REED_API_KEY") as [e|]; cbn [or_text]; [|done].
    destruct (is_empty e) eqn:He; [by rewrite ?He|].
    rewrite Hok, He. by destruct (validate_reed_api_key (Some e)).
Qed.
End Init.

(** ** [util.py]: the outcomes of [parse_location] *)

Lemma rstrip_idem s : rstrip (rstrip s) = rstrip s.
Proof.
  induction s as [|c s IH]; simpl; [done|].
  destruct (isspace c && is_empty (rstrip s)) eqn:E; [done|].
  simpl. by rewrite IH, E.
Qed.

Lemma rstrip_head c s :
  isspace c = false -> rstrip (String c s) = String c (rstrip s).
Proof. intros Hc. simpl. by rewrite Hc. Qed.

Lemma lstrip_head s :
  lstrip s = "" \/ exists c t, lstrip s = String c t /\ isspace c = false.
Proof.
  induction s as [|c s IH]; simpl; [by left|].
  destruct (isspace c) eqn:Hc; [done|]. right. eauto.
Qed.

Lemma lstrip_fixed c t : isspace c = false -> lstrip (String c t) = String c t.
Proof. intros Hc. simpl. by rewrite Hc. Qed.

Lemma strip_idem s : strip (strip s) = strip s.
Proof.
  unfold strip. destruct (lstrip_head s) as [-> | (c & t & -> & Hc)]; [done|].
  rewrite rstrip_head by done. rewrite lstrip_fixed by done.
  by rewrite <- rstrip_head, rstrip_idem.
Qed.

Lemma all_chars_lstrip p s :
  all_chars p s = true -> all_chars p (lstrip s) = true.
Proof.
  induction s as [|c s IH]; simpl; [done|].
  intros [Hc Hs]%andb_prop. destruct (isspace c); [by apply IH|].
  simpl. by rewrite Hc, Hs.
Qed.

Lemma all_chars_rstrip p s :
  all_chars p s = true -> all_chars p (rstrip s) = true.
Proof.
  induction s as [|c s IH]; simpl; [done|].
  intros [Hc Hs]%andb_prop.
  destruct (isspace c && is_empty (rstrip s)); [done|].
  simpl. by rewrite Hc, IH.
Qed.

Lemma all_chars_strip p s :
  all_chars p s = true -> all_chars p (strip s) = true.
Proof. intros Hs. by apply all_chars_rstrip, all_chars_lstrip. Qed.

Lemma all_chars_lstrip_space p s :
  (forall c, isspace c = true -> p c = true) ->
  all_chars p (lstrip s) = all_chars p s.
Proof.
  intros Hp. induction s as [|c s IH]; simpl; [done|].
  destruct (isspace c) eqn:Hc; [|done]. by rewrite IH, (Hp _ Hc).
Qed.

Lemma all_chars_rstrip_space p s :
  (forall c, isspace c = true -> p c = true) ->
  all_chars p (rstrip s) = all_chars p s.
Proof.
  intros Hp. induction s as [|c s IH]; simpl; [done|].
  destruct (isspace c) eqn:Hc; simpl.
  - destruct (rstrip s) eqn:Hr; simpl in *.
    + by rewrite <- IH, (Hp _ Hc).
    + by rewrite <- IH.
  - by rewrite IH.
Qed.

Lemma space_not_comma c : isspace c = true -> not_comma c = true.
Proof. destruct c as [[] [] [] [] [] [] [] []]; by vm_compute. Qed.

Lemma text_before_no_sep s :
  all_chars not_comma (text_before "," s) = true.
Proof.
  induction s as [|c s IH]; simpl; [done|].
  destruct (Ascii.eqb c ",") eqn:Hc; [done|]. simpl.
  unfold not_comma at 1. by rewrite Hc, IH.
Qed.

Lemma text_after_None s :
  text_after "," s = None <-> all_chars not_comma s = true.
Proof.
  induction s as [|c s IH]; simpl; [done|]. unfold not_comma at 1.
  destruct (Ascii.eqb c ","); simpl; [done | exact IH].
Qed.

Lemma parse_location_parts s :
  s <> "" ->
  parse_location (JStr s)
  = Ok (Some {| city := Some (strip (text_before "," (strip s)));
                state := (fun r => strip (text_before "," r))
                           <$> text_after "," (strip s);
                country := Some UK |}).
Proof.
  intros Hs. unfold parse_location.
  destruct s as [|c s']; [done|]. simpl truthy. cbv iota.
  change (method_strip (JStr ?x)) with (Ok (strip x)).
  change (mbind ?f (Ok ?x)) with (f x). cbv beta.
  rewrite (split_before_after "," (strip (String c s'))).
  destruct (text_after "," (strip (String c s'))) as [r|]; simpl; [|done].
  by rewrite (split_before_after "," r).
Qed.

(** What [parse_location] does, by outcome.  It returns [None] only for a
    falsy argument and raises, [AttributeError], only for a truthy one that
    is not text.  The location it makes of a non-empty text is in the UK;
    its city and its region are trimmed and hold no comma, and the region
    is missing exactly when the text holds no comma. *)
Theorem parse_location_outcomes v :
  match parse_location v with
  | Ok None => truthy v = false
  | Ok (Some l) =>
      exists s, v = JStr s /\ s <> ""
        /\ country l = Some UK
        /\ (exists c, city l = Some c /\ strip c = c
                      /\ all_chars not_comma c = true)
        /\ (forall r, state l = Some r ->
                      strip r = r /\ all_chars not_comma r = true)
        /\ (state l = None <-> all_chars not_comma s = true)
  | Raise e => e = AttributeError /\ truthy v = true /\ forall s, v <> JStr s
  end.
Proof.
  destruct (truthy v) eqn:Hv.
  - destruct v as [| b | n | x | s | items | fields];
      try (unfold parse_location; rewrite Hv; simpl; by repeat split).
    assert (s <> "") as Hs by (by destruct s).
    rewrite (parse_location_parts s Hs). exists s. simpl.
    split; [done|]. split; [done|]. split; [done|]. split; [|split].
    + eexists. split; [done|]. split; [apply strip_idem|].
      apply all_chars_strip, text_before_no_sep.
    + intros r. destruct (text_after "," (strip s)) as [r'|]; [|done].
      simpl. intros [= <-]. split; [apply strip_idem|].
      apply all_chars_strip, text_before_no_sep.
    + rewrite <- (all_chars_lstrip_space not_comma s)
        by apply space_not_comma.
      rewrite <- (all_chars_rstrip_space not_comma (lstrip s))
        by apply space_not_comma.
      rewrite <- text_after_None. unfold strip.
      by destruct (text_after "," (rstrip (lstrip s))).
  - unfold parse_location. by rewrite Hv.
Qed.

(** ** [util.py]: remote detection over two texts *)

Lemma prefix_empty s : String.prefix "" s = true.
Proof. by destruct s. Qed.

Lemma prefix_app p a b :
  String.prefix p a = true -> String.prefix p (a +:+ b) = true.
Proof.
  revert p. induction a as [|c' a IH]; intros [|c p]; simpl;
    rewrite ?prefix_empty; try done.
  idtac.
  destruct (ascii_dec c c'); [apply IH | done].
Qed.

Lemma contains_app_l p a b :
  contains p a = true -> contains p (a +:+ b) = true.
Proof.
  induction a as [|c a IH].
  - simpl. rewrite orb_false_r. intros Hp. destruct p; [|done].
    destruct b; simpl; by rewrite ?prefix_empty.
  - rewrite str_app_cons. cbn [contains].
    intros [Hp | Ha]%orb_prop.
    + apply (prefix_app _ _ b) in Hp. rewrite str_app_cons in Hp.
      by rewrite Hp.
    + rewrite (IH Ha). apply orb_true_r.
Qed.

Lemma contains_app_r p a b :
  contains p b = true -> contains p (a +:+ b) = true.
Proof.
  intros Hb. induction a as [|c a IH]; [done|].
  rewrite str_app_cons. cbn [contains]. rewrite IH. apply orb_true_r.
Qed.

Lemma existsb_impl {A} (f g : A -> bool) l :
  (forall x, f x = true -> g x = true) ->
  existsb f l = true -> existsb g l = true.
Proof.
  intros Hfg. induction l as [|x l IH]; simpl; [done|].
  intros [Hx | Hl]%orb_prop; [by rewrite (Hfg _ Hx) | rewrite IH by done].
  apply orb_true_r.
Qed.

Lemma lower_char_idem c : lower_char (lower_char c) = lower_char c.
Proof. destruct c as [[] [] [] [] [] [] [] []]; by vm_compute. Qed.

Lemma lower_idem s : lower (lower s) = lower s.
Proof. induction s as [|c s IH]; simpl; [done|]. by rewrite lower_char_idem, IH. Qed.

Lemma is_empty_lower s : is_empty (lower s) = is_empty s.
Proof. by destruct s. Qed.

Lemma is_job_remote_texts l d :
  is_job_remote (JStr l) (JStr d)
  = Ok (if is_empty l then
          if is_empty d then false
          else existsb (fun p => contains p (lower d)) REED_REMOTE_PATTERNS
        else if is_empty d then
          existsb (fun p => contains p (lower l)) REED_REMOTE_PATTERNS
        else existsb (fun p => contains p (lower l +:+ " " +:+ lower d))
               REED_REMOTE_PATTERNS).
Proof. destruct l, d; reflexivity. Qed.

Lemma Ok_inj {A} (a b : A) : Ok a = Ok b -> a = b.
Proof. congruence. Qed.

Lemma is_job_remote_one_text t :
  is_job_remote (JStr t) JNull
  = Ok (if is_empty t then false
        else existsb (fun p => contains p (lower t)) REED_REMOTE_PATTERNS)
  /\ is_job_remote JNull (JStr t) = is_job_remote (JStr t) JNull.
Proof. by destruct t. Qed.

(** A posting is remote as soon as its location or its description alone
    says so, whatever the other text is; the letter case of the texts does
    not matter.  The converse fails, because the patterns are looked for in
    the two texts joined by a space: a location "Home" and a description that
    begins with "Based" make a remote posting. *)
Theorem remote_either_text l d :
  (is_job_remote (JStr l) JNull = Ok true
   \/ is_job_remote JNull (JStr d) = Ok true ->
   is_job_remote (JStr l) (JStr d) = Ok true)
  /\ is_job_remote (JStr (lower l)) (JStr (lower d))
     = is_job_remote (JStr l) (JStr d)
  /\ (is_job_remote (JStr "Home") JNull = Ok false
      /\ is_job_remote JNull (JStr "Based in Leeds") = Ok false
      /\ is_job_remote (JStr "Home") (JStr "Based in Leeds") = Ok true).
Proof.
  split; [|split; [|by vm_compute]].
  - rewrite is_job_remote_texts.
    rewrite (proj2 (is_job_remote_one_text d)).
    rewrite !(proj1 (is_job_remote_one_text _)).
    destruct (is_empty l), (is_empty d).
    + by intros [|].
    + by intros [|].
    + by intros [|].
    + intros [Hl | Hd]; f_equal.
      * apply Ok_inj in Hl. revert Hl. apply existsb_impl.
        intros p. apply contains_app_l.
      * apply Ok_inj in Hd. revert Hd. apply existsb_impl.
        intros p Hp. by apply contains_app_r, contains_app_r.
  - by rewrite !is_job_remote_texts, !is_empty_lower, !lower_idem.
Qed.

(** ** Job ids and canonical URLs *)

Lemma string_of_uint_digits d :
  all_chars isdigit (NilEmpty.string_of_uint d) = true.
Proof. induction d; simpl; by rewrite ?IHd. Qed.

Lemma string_of_uint_nonempty d :
  d <> Decimal.Nil -> NilEmpty.string_of_uint d <> "".
Proof. by destruct d. Qed.

Lemma NilZero_string_of_uint_digits d :
  NilZero.string_of_uint d <> ""
  /\ all_chars isdigit (NilZero.string_of_uint d) = true.
Proof.
  destruct d; try done;
    (split; [done | apply (string_of_uint_digits (_ d))]).
Qed.

Lemma str_of_int_digits n :
  0 <= n ->
  str_of_int n <> "" /\ all_chars isdigit (str_of_int n) = true.
Proof.
  intros Hn. unfold str_of_int. destruct n as [|p|p]; [done| |lia].
  apply NilZero_string_of_uint_digits.
Qed.

Lemma all_chars_impl (p q : ascii -> bool) s :
  (forall c, p c = true -> q c = true) ->
  all_chars p s = true -> all_chars q s = true.
Proof.
  intros Hpq. induction s as [|c s IH]; simpl; [done|].
  intros [Hc Hs]%andb_prop. by rewrite (Hpq _ Hc), IH.
Qed.

Lemma isdigit_not_slash c : isdigit c = true -> not_slash c = true.
Proof. destruct c as [[] [] [] [] [] [] [] []]; by vm_compute. Qed.

Lemma str_of_int_no_slash n : all_chars not_slash (str_of_int n) = true.
Proof.
  unfold str_of_int. destruct n as [|p|p]; [done| |]; simpl.
  - apply (all_chars_impl isdigit); [apply isdigit_not_slash|].
    apply NilZero_string_of_uint_digits.
  - apply (all_chars_impl isdigit); [apply isdigit_not_slash|].
    apply NilZero_string_of_uint_digits.
Qed.

Lemma extract_fallback_url t :
  all_chars not_slash t = true ->
  extract_job_id_from_url ("https://www.reed.co.uk/jobs/unknown-" +:+ t)
  = None.
Proof.
  intros Ht. unfold extract_job_id_from_url, re_search.
  assert (search_from job_id_pattern
            ("https://www.reed.co.uk/jobs/unknown-" +:+ t) true
          = search_from job_id_pattern ("unknown-" +:+ t) false) as ->
    by reflexivity.
  by rewrite (search_job_id_no_slash ("unknown-" +:+ t)).
Qed.

Section Ids.
Context `{Runtime}.

(** The id of a posting can be read back from its canonical URL when it is a
    run of digits, as the non-negative integer ids of the vendor are; the URL
    made up for a record without an id holds no id. *)
Theorem posting_id_from_url job_data p :
  _parse_job job_data = Ok (Some p) ->
  (forall i, id p = Some i -> i <> "" -> all_chars isdigit i = true ->
             extract_job_id_from_url (job_url p) = Some i)
  /\ (forall n, dict_get job_data "jobId" (JStr "") = Ok (JInt n) ->
                0 <= n -> extract_job_id_from_url (job_url p) = id p)
  /\ (id p = Some "" -> extract_job_id_from_url (job_url p) = None).
Proof.
  intros Hp.
  destruct (_parse_job_normalized _ _ Hp)
    as [_ _ _ _ _ (v & Hv & Hid & Hurl) _ _].
  assert (forall i, id p = Some i -> i <> "" -> all_chars isdigit i = true ->
             extract_job_id_from_url (job_url p) = Some i) as Hdigits.
  { intros i Hi Hne Hd. rewrite Hid in Hi. injection Hi as Hi.
    rewrite Hurl, Hi. destruct i; [done|]. simpl is_empty. cbv iota.
    rewrite <- (str_app_nil_r (String a i)) at 1.
    by apply extract_reed_job_url. }
  split; [exact Hdigits|]. split.
  - intros n Hn H0. rewrite Hn in Hv. injection Hv as <-.
    rewrite Hid. apply Hdigits; [done|..]; by apply str_of_int_digits.
  - intros Hi. rewrite Hid in Hi. injection Hi as Hi.
    rewrite Hurl, Hi. simpl. apply extract_fallback_url, str_of_int_no_slash.
Qed.
End Ids.

(** ** [_parse_job]: trimmed texts and dropped records *)

Section Records.
Context `{Runtime}.

Lemma _parse_job_texts job_data p :
  _parse_job job_data = Ok (Some p) ->
  exists t c d,
    dict_get job_data "jobTitle" (JStr "") = Ok (JStr t)
    /\ dict_get job_data "employerName" (JStr "") = Ok (JStr c)
    /\ dict_get job_data "jobDescription" (JStr "") = Ok (JStr d)
    /\ title p = strip t
    /\ company_name p = Some (strip c)
    /\ description p = (if is_empty (strip d) then None else Some (strip d)).
Proof.
  intros Hp. apply _parse_job_Some in Hp. unfold _parse_job_try in Hp.
  invert_result.
  match type of Hp with context [is_empty ?t] =>
    destruct (is_empty t) eqn:Ht; [discriminate|] end.
  invert_result.
  match goal with E : new_JobPost _ _ _ _ ?d _ _ _ _ _ _ = Ok _ |- _ =>
    unfold new_JobPost in E; destruct d eqn:Hd; try discriminate E;
    injection E as E end.
  repeat match goal with
  | E : method_strip ?v = Ok _ |- _ =>
      destruct v; try discriminate E; injection E as E
  end.
  subst. simpl.
  match goal with
  | E0 : dict_get _ "jobTitle" _ = Ok (JStr ?t),
    E2 : dict_get _ "employerName" _ = Ok (JStr ?c),
    E10 : dict_get _ "jobDescription" _ = Ok (JStr ?d) |- _ =>
      exists t, c, d; repeat (split; [done|]);
      by destruct (is_empty (strip d))
  end.
Qed.

(** The texts of a posting are the record's, trimmed: title, company name
    and description carry no white space at either end; a record without an
    employer gives the empty company name, and a blank description gives no
    description rather than an empty one. *)
Theorem posting_texts_trimmed job_data p :
  _parse_job job_data = Ok (Some p) ->
  strip (title p) = title p
  /\ (exists c, company_name p = Some c /\ strip c = c
                /\ (dict_get job_data "employerName" (JStr "") = Ok (JStr "")
                    -> c = ""))
  /\ description p <> Some ""
  /\ (forall d, description p = Some d -> strip d = d).
Proof.
  intros Hp.
  destruct (_parse_job_texts _ _ Hp)
    as (t & c & d & Ht & Hc & Hd & -> & -> & ->).
  split; [apply strip_idem|]. split; [|split].
  - eexists. split; [done|]. split; [apply strip_idem|].
    rewrite Hc. by intros [= ->].
  - destruct (strip d); done.
  - intros d'. destruct (is_empty (strip d)); [done|].
    intros [= <-]. apply strip_idem.
Qed.

(** A record is dropped, without an error, when it is not an object, when
    its title, employer or description is present but not text (JSON null
    included), when its title is blank, when its location is truthy and not
    text, or when a truthy salary cannot be cast to a float. *)
Theorem malformed_record_dropped job_data :
  (forall fields, job_data <> JObj fields)
  \/ (exists k v, In k text_keys
        /\ dict_get job_data k (JStr "") = Ok v /\ is_text v = false)
  \/ (exists t, dict_get job_data "jobTitle" (JStr "") = Ok (JStr t)
                /\ strip t = "")
  \/ (exists v, dict_get job_data "locationName" JNull = Ok v
                /\ truthy v = true /\ is_text v = false)
  \/ (exists k v e, In k salary_keys
        /\ dict_get job_data k JNull = Ok v /\ truthy v = true
        /\ py_float v = Raise e) ->
  _parse_job job_data = Ok None.
Proof.
  intros Hbad.
  destruct (_parse_job_returns job_data) as [[p|] Hp]; [exfalso|done].
  destruct (_parse_job_texts _ _ Hp)
    as (t & c & d & Ht & Hc & Hd & Htitle & _ & _).
  pose proof (emitted_title _ _ Hp) as Hne.
  destruct (_parse_job_normalized _ _ Hp)
    as [_ (l & Hl & Hloc) (lo & hi & Hlo & Hhi & Hcomp) _ _ _ _ _].
  destruct Hbad as [Hobj | [(k & v & Hk & Hv & Hx) | [(t' & Ht' & Hb)
    | [(v & Hv & Htr & Hx) | (k & v & e & Hk & Hv & Htr & He)]]]].
  - destruct job_data; try discriminate Ht. by eapply Hobj.
  - simpl in Hk. destruct Hk as [<- | [<- | [<- | []]]];
      rewrite Hv in *; simplify_eq; done.
  - rewrite Ht' in Ht. injection Ht as <-. by rewrite Htitle, Hb in Hne.
  - rewrite Hv in Hl. injection Hl as <-.
    unfold parse_location in Hloc. rewrite Htr in Hloc. simpl in Hloc.
    by destruct v.
  - apply parse_compensation_spec in Hcomp.
    assert (is_None v = false) as Hnone by (by destruct v).
    simpl in Hk. destruct Hk as [<- | [<- | []]].
    + rewrite Hv in Hlo. injection Hlo as <-. rewrite Hnone in Hcomp.
      destruct Hcomp as (a & b & _ & Ha & _). unfold amount_matches in Ha.
      rewrite Htr in Ha. destruct Ha as (x & Hx & _). congruence.
    + rewrite Hv in Hhi. injection Hhi as <-. rewrite Hnone in Hcomp.
      rewrite andb_false_r in Hcomp.
      destruct Hcomp as (a & b & _ & _ & Hb). unfold amount_matches in Hb.
      rewrite Htr in Hb. destruct Hb as (x & Hx & _). congruence.
Qed.
End Records.

(** ** [get_job_details] *)

Section Details.
Context `{Runtime} (vendor : Vendor).

Lemma details_url job_id :
  base_url +:+ "/jobs/" +:+ job_id
  = "https://www.reed.co.uk/api/1.0/jobs/" +:+ job_id.
Proof. reflexivity. Qed.

(** [get_job_details] never raises.  It sends one request, to
    [{base_url}/jobs/{job_id}] with no query parameters and a timeout of 30
    seconds, and what it returns other than [None] is the body of a response
    whose status is not an error. *)
Theorem get_job_details_never_raises job_id sent :
  exists v,
    get_job_details vendor job_id sent
    = (Ok v, (sent ++ [details_request job_id])%list)
    /\ (v <> JNull ->
        exists response,
          vendor sent (details_request job_id) = Ok response
          /\ transport_or_http_error (Ok response) = false
          /\ body response = Some v).
Proof.
  unfold get_job_details, try_exceptM, session_get, mbind, M_bind, lift,
    mret, M_ret. cbv zeta. rewrite details_url.
  fold (details_request job_id).
  destruct (vendor sent (details_request job_id)) as [response|e];
    [|by exists JNull].
  unfold raise_for_status, response_json. simpl.
  destruct ((400 <=? status_code response) && (status_code response <? 600))
    eqn:Hs; [by exists JNull|].
  destruct (body response) as [d|] eqn:Hb; [|by exists JNull].
  exists d. split; [done|]. intros _. exists response. by rewrite Hb.
Qed.

(** A response with a JSON body and a status that is not an error is
    delivered as it is. *)
Theorem get_job_details_delivers job_id sent response d :
  vendor sent (details_request job_id) = Ok response ->
  transport_or_http_error (Ok response) = false ->
  body response = Some d ->
  fst (get_job_details vendor job_id sent) = Ok d.
Proof.
  intros Hv Hs Hb.
  unfold get_job_details, try_exceptM, session_get, mbind, M_bind, lift,
    mret, M_ret. cbv zeta. rewrite details_url.
  fold (details_request job_id). rewrite Hv.
  unfold raise_for_status, response_json. simpl in *. by rewrite Hs, Hb.
Qed.

End Details.

(** ** The constructor *)

Section Constructor.
Context `{Platform}.

Lemma is_empty_true s : is_empty s = true <-> s = "".
Proof. by destruct s. Qed.

Lemma or_text_empty x :
  is_empty (or_text x "") = true <-> x = None \/ x = Some "".
Proof.
  destruct x as [[|c s]|]; simpl; split; auto; try done.
  intros [H0 | H0]; discriminate.
Qed.



(** The key argument wins over the environment, which is read only when the
    argument is absent or empty. *)
Theorem key_argument_wins proxies ca_cert user_agent api_key r warnings :
  __init__ proxies ca_cert user_agent api_key = Ok (r, warnings) ->
  Reed.api_key r <> ""
  /\ (forall k, api_key = Some k -> k <> "" -> Reed.api_key r = k)
  /\ (api_key = None \/ api_key = Some "" ->
      getenv "REED_API_KEY" = Some (Reed.api_key r)).
Proof.
  rewrite __init___resolved. cbv zeta.
  destruct (is_empty (resolved_key api_key)) eqn:He; [done|].
  intros [= <- _]. simpl. unfold resolved_key in *.
  split; [by intros Hk; rewrite Hk in He|]. split.
  - intros k -> Hk. by destruct k.
  - intros [-> | ->]; simpl in *;
      destruct (getenv "REED_API_KEY") as [[|c e]|]; done.
Qed.


Lemma string_list_ascii l : list_ascii_of_string (string_of_list_ascii l) = l.
Proof. apply list_ascii_of_string_of_list_ascii. Qed.

(** The [Authorization] header is HTTP Basic authentication with the key as
    user name and an empty password: what follows "Basic " decodes, as
    Base64 and then as UTF-8, to the key followed by a colon. *)
Theorem authorization_carries_key proxies ca_cert user_agent api_key r warnings :
  __init__ proxies ca_cert user_agent api_key = Ok (r, warnings) ->
  exists payload,
    headers (session r) !! "Authorization" = Some ("Basic " +:+ payload)
    /\ exists b, b64decode (list_ascii_of_string payload) = Some b
                 /\ bytes_decode b = Ok (Reed.api_key r +:+ ":").
Proof.
  rewrite __init___resolved. cbv zeta.
  destruct (is_empty (resolved_key api_key)); [done|].
  intros [= <- _]. simpl. eexists. split.
  - rewrite lookup_insert_ne by done. by rewrite lookup_insert.
  - rewrite string_list_ascii, b64decode_encode. eexists. split; [done|].
    apply bytes_decode_encode.
Qed.

End Constructor.

(** ** [_fetch_jobs] and [scrape]: pages, provenance, termination *)

Section Runs.
Context `{Runtime} (vendor : Vendor).

(** The page the vendor sent is what [_fetch_jobs] returns: the list itself,
    or the list under [results].  A [results] that has no length (JSON null,
    a number, a boolean) counts as a failure: [_fetch_jobs] returns [None]. *)
Theorem page_delivered keywords location_name distance take skip is_remote
    job_type hours_old sent response :
  vendor sent (search_request keywords location_name distance take skip
                 is_remote job_type hours_old) = Ok response ->
  transport_or_http_error (Ok response) = false ->
  (forall items,
      body response = Some (JArr items)
      \/ (exists fields, body response = Some (JObj fields)
            /\ lookup_field "results" fields = Some (JArr items)) ->
      fst (_fetch_jobs vendor keywords location_name distance take skip
             is_remote job_type hours_old sent) = Ok (Some (JArr items)))
  /\ (forall fields v,
        body response = Some (JObj fields) ->
        lookup_field "results" fields = Some v ->
        (forall n, py_len v <> Ok n) ->
        fst (_fetch_jobs vendor keywords location_name distance take skip
               is_remote job_type hours_old sent) = Ok None).
Proof.
  intros Hv Hs.
  unfold _fetch_jobs, try_exceptM, _fetch_jobs_try, session_get, mbind, M_bind,
    lift, search_request in *.
  rewrite Hv. unfold raise_for_status. simpl in Hs. rewrite Hs.
  unfold response_json. split.
  - intros items [-> | (fields & -> & Hr)]; [done|]. by rewrite Hr.
  - intros fields v -> -> Hn. destruct (py_len v) as [n|e] eqn:Hl.
    + by destruct (Hn n).
    + simpl. by destruct (is_RequestException e).
Qed.

Section Iterations.
Variables (si : ScraperInput) (rw rpp : Z).

Lemma for_job_data_parsed items st :
  Forall (fun p => exists job_data, _parse_job job_data = Ok (Some p))
    (job_list st) ->
  Forall (fun p => exists job_data, _parse_job job_data = Ok (Some p))
    (job_list (for_job_data rw items st)).
Proof.
  revert st. induction items as [|job_data rest IH]; intros st Hst; simpl;
    [done|].
  destruct (try_except _ _) as [[job_post|]|e] eqn:Hp; try by apply IH.
  assert (_parse_job job_data = Ok (Some job_post)) as Hj.
  { destruct (_parse_job job_data) as [r|e]; simpl in Hp;
      [by injection Hp as -> | discriminate]. }
  set (st1 := {| job_list := _ |}).
  assert (Forall (fun p => exists job_data, _parse_job job_data = Ok (Some p))
            (job_list st1)) as H1.
  { subst st1; simpl. apply Forall_app; split; [done|].
    constructor; [by exists job_data | done]. }
  destruct (rw <=? _); [done | by apply IH].
Qed.

Lemma for_job_data_monotone items st :
  total_fetched st <= total_fetched (for_job_data rw items st).
Proof.
  revert st. induction items as [|job_data rest IH]; intros st; simpl; [lia|].
  destruct (try_except _ _) as [[job_post|]|e]; try by apply IH.
  set (st1 := {| job_list := _ |}).
  destruct (rw <=? _).
  - subst st1; simpl. lia.
  - etrans; [|apply IH]. subst st1; simpl. lia.
Qed.

Lemma for_job_data_progress items st :
  Exists parsable items ->
  total_fetched st < total_fetched (for_job_data rw items st).
Proof.
  intros Hex. revert st.
  induction Hex as [job_data rest (p & Hp) | job_data rest _ IH]; intros st;
    simpl.
  - rewrite Hp. simpl. set (st1 := {| job_list := _ |}).
    destruct (rw <=? _).
    + subst st1; simpl. lia.
    + pose proof (for_job_data_monotone rest st1). subst st1; simpl in *. lia.
  - destruct (try_except _ _) as [[job_post|]|e]; try by apply IH.
    set (st1 := {| job_list := _ |}).
    destruct (rw <=? _).
    + subst st1; simpl. lia.
    + pose proof (for_job_data_monotone rest st1). subst st1; simpl in *. lia.
Qed.

Lemma for_job_data_barren items st :
  Forall (fun job_data => _parse_job job_data = Ok None) items ->
  for_job_data rw items st = st.
Proof.
  induction 1 as [|job_data rest Hp _ IH]; simpl; [done|]. by rewrite Hp.
Qed.

Lemma loop_body_progress st sent st1 sent1 :
  productive vendor ->
  loop_body vendor si rw rpp st sent = (Ok (Next, st1), sent1) ->
  total_fetched st < total_fetched st1.
Proof.
  intros Hprod. unfold loop_body, mbind, M_bind.
  destruct (fetch_batch _ _ _ _ _) as [[[jobs_batch|]|e] s] eqn:Hf;
    unfold mret, M_ret; try discriminate.
  destruct (truthy jobs_batch) eqn:Ht; simpl; [|discriminate].
  destruct (Hprod _ _ _ _ _ _ _ _ _ _ _ Hf Ht) as (items & Hi & Hex).
  unfold lift. rewrite Hi.
  destruct (py_len jobs_batch) as [n|e] eqn:Hn; [|discriminate].
  destruct (n <? _) eqn:Hlt; [discriminate|].
  intros [= <- <-]. simpl. by apply for_job_data_progress.
Qed.

Lemma while_loop_terminates fuel :
  productive vendor ->
  forall st sent,
    rw - total_fetched st <= Z.of_nat fuel ->
    exists st' sent',
      while_loop vendor fuel si rw rpp st sent = (Ok (Some st'), sent')
      /\ (length sent' <= length sent + fuel)%nat.
Proof.
  intros Hprod. induction fuel as [|fuel IH]; intros st sent Hfuel; simpl;
    destruct (total_fetched st <? rw) eqn:Hc;
    try (eexists _, _; split; [reflexivity | lia]).
  { lia. }
  unfold mbind, M_bind.
  destruct (loop_body_returns vendor si rw rpp st sent)
    as (fl & st1 & items & Hb & _).
  rewrite Hb. destruct fl.
  - eexists _, _. split; [reflexivity|]. rewrite length_app. simpl. lia.
  - pose proof (loop_body_progress _ _ _ _ Hprod Hb) as Hlt.
    destruct (IH st1 (sent ++ [page_request si rw rpp st])%list)
      as (st' & sent' & -> & Hlen); [lia|].
    eexists _, _. split; [reflexivity|].
    rewrite length_app in Hlen. simpl in Hlen. lia.
Qed.

Lemma loop_body_barren size st sent :
  barren size vendor -> rpp <= size -> 0 < rpp -> total_fetched st < rw ->
  exists st1 sent1,
    loop_body vendor si rw rpp st sent = (Ok (Next, st1), sent1)
    /\ total_fetched st1 = total_fetched st.
Proof.
  intros Hbar Hrpp Hpos Hlt. unfold loop_body, fetch_batch, mbind, M_bind.
  destruct (Hbar (search_term si) (location si)
              (or_default (distance si) 10) (page_size rw rpp st)
              (results_to_skip st) (is_remote si) (job_type si) (hours_old si)
              sent) as (items & sent1 & -> & Hlen & Hnone).
  assert (truthy (JArr items) = true) as ->
    by (destruct items; [simpl in Hlen; lia | done]).
  unfold lift, mret, M_ret. cbn [negb py_iter py_len].
  assert ((Z.of_nat (length items) <? page_size rw rpp st) = false) as ->.
  { apply Z.ltb_ge. unfold page_size. lia. }
  eexists _, _. split; [reflexivity|]. simpl.
  by rewrite for_job_data_barren.
Qed.

Lemma while_loop_barren size fuel :
  barren size vendor -> rpp <= size -> 0 < rpp ->
  forall st sent,
    total_fetched st < rw ->
    fst (while_loop vendor fuel si rw rpp st sent) = Ok None.
Proof.
  intros Hbar Hrpp Hpos.
  induction fuel as [|fuel IH]; intros st sent Hlt; simpl;
    (destruct (total_fetched st <? rw) eqn:Hc; [|lia]); [done|].
  unfold mbind, M_bind.
  destruct (loop_body_barren size st sent Hbar Hrpp Hpos Hlt)
    as (st1 & sent1 & -> & H1).
  apply IH. lia.
Qed.

End Iterations.

(** Every posting [scrape] returns is what [_parse_job] made of some
    record: [scrape] adds no posting of its own and changes none. *)
Theorem scraped_postings_are_parsed fuel si sent resp sent' :
  scrape vendor fuel si sent = (Ok (Some resp), sent') ->
  Forall (fun p => exists job_data, _parse_job job_data = Ok (Some p))
    (jobs resp).
Proof.
  intros Hs. destruct (scrape_Some _ _ _ _ _ _ Hs) as (st & Hw & ->).
  eapply (while_loop_invariant vendor si _ _
            (fun jl _ =>
               Forall (fun p => exists job_data,
                                  _parse_job job_data = Ok (Some p)) jl))
    in Hw; [done| |by constructor].
  intros st0 items Hst _. by apply for_job_data_parsed.
Qed.

(** Against a vendor whose non-empty pages each hold at least one record
    that normalizes, [scrape] returns after at most as many requests as
    postings are wanted. *)
Theorem scrape_terminates fuel si sent :
  productive vendor ->
  or_default (results_wanted si) 15 <= Z.of_nat fuel ->
  exists resp sent',
    scrape vendor fuel si sent = (Ok (Some resp), sent')
    /\ (length sent' <= length sent + fuel)%nat.
Proof.
  intros Hprod Hfuel. unfold scrape, mbind, M_bind. cbv zeta.
  destruct (while_loop_terminates si (or_default (results_wanted si) 15)
              (Z.min 100 (or_default (results_wanted si) 15)) fuel Hprod
              (initial si) sent) as (st & sent' & -> & Hlen);
    [simpl; lia|].
  by eexists _, _.
Qed.

(** The loop has no bound of its own: against a vendor whose pages are
    always as long as asked for and hold no record that normalizes, [scrape]
    asked for at least one posting has not returned after any number of
    iterations. *)
Theorem barren_pages_never_end size fuel si sent :
  barren size vendor ->
  0 < or_default (results_wanted si) 15 ->
  Z.min 100 (or_default (results_wanted si) 15) <= size ->
  fst (scrape vendor fuel si sent) = Ok None.
Proof.
  intros Hbar Hrw Hsize. unfold scrape, mbind, M_bind. cbv zeta.
  pose proof (while_loop_barren si (or_default (results_wanted si) 15)
                (Z.min 100 (or_default (results_wanted si) 15)) size fuel Hbar
                Hsize ltac:(lia) (initial si) sent Hrw) as Hw.
  destruct (while_loop _ _ _ _ _ _ _) as [[r|e] s]; simpl in Hw;
    [injection Hw as -> | discriminate].
  reflexivity.
Qed.

End Runs.

(** ** More sample runs *)

Lemma extract_job_id_of_reed_url_witness :
  extract_job_id_from_url ("https://www.reed.co.uk/jobs/" +:+ "42" +:+ "/apply")
  = Some "42".
Proof.
  apply (extract_job_id_of_reed_url "42" "/apply");
    [discriminate | reflexivity | reflexivity].
Defined.

(** A key given as an argument, with another one in the environment. *)
Lemma key_argument_wins_witness :
  exists r w,
    @__init__ (Sample.platform (Some "from-env")) None None None
      (Some "from-arg") = Ok (r, w)
    /\ Reed.api_key r = "from-arg".
Proof.
  eexists _, _. split; [vm_compute; reflexivity|].
  eapply (@key_argument_wins (Sample.platform (Some "from-env")) None None
            None (Some "from-arg") _ _);
    [vm_compute; reflexivity | reflexivity | discriminate].
Defined.


(** The header of the key ["k"]: [azo=] is the Base64 of ["k:"]. *)
Lemma authorization_carries_key_witness :
  exists r w,
    @__init__ (Sample.platform None) None None None (Some "k") = Ok (r, w)
    /\ headers (session r) !! "Authorization" = Some "Basic azo="
    /\ exists payload,
         headers (session r) !! "Authorization" = Some ("Basic " +:+ payload)
         /\ exists b, b64decode (list_ascii_of_string payload) = Some b
                      /\ bytes_decode b = Ok (Reed.api_key r +:+ ":").
Proof.
  eexists _, _. split; [vm_compute; reflexivity|].
  split; [vm_compute; reflexivity|].
  eapply (@authorization_carries_key (Sample.platform None) None None None
            (Some "k") _ _).
  vm_compute; reflexivity.
Defined.


Lemma get_job_details_delivers_witness :
  fst (get_job_details
         (Sample.always
            (Ok {| status_code := 200; body := Some Sample.details |}))
         "42" [])
  = Ok Sample.details.
Proof.
  eapply (get_job_details_delivers _ "42" []);
    [reflexivity | reflexivity | reflexivity].
Defined.

Lemma posting_id_from_url_witness :
  exists p,
    @_parse_job Sample.runtime (Sample.linked JNull) = Ok (Some p)
    /\ job_url p = "https://www.reed.co.uk/jobs/42"
    /\ extract_job_id_from_url (job_url p) = id p.
Proof.
  eexists. split; [vm_compute; reflexivity|]. split; [reflexivity|].
  eapply (proj1 (proj2 (@posting_id_from_url Sample.runtime
                          (Sample.linked JNull) _ eq_refl)) 42);
    [reflexivity | lia].
Defined.

Lemma posting_texts_trimmed_witness :
  exists p,
    @_parse_job Sample.runtime Sample.padded = Ok (Some p)
    /\ title p = "Developer" /\ company_name p = Some "ACME"
    /\ description p = None
    /\ strip (title p) = title p.
Proof.
  eexists. split; [vm_compute; reflexivity|].
  split; [reflexivity|]. split; [reflexivity|]. split; [reflexivity|].
  eapply (proj1 (@posting_texts_trimmed Sample.runtime Sample.padded _ _)).
  Unshelve. vm_compute; reflexivity.
Defined.

(** An employer that is [null] costs the record. *)
Lemma malformed_record_dropped_witness :
  @_parse_job Sample.runtime Sample.nameless = Ok None.
Proof.
  apply (@malformed_record_dropped Sample.runtime Sample.nameless).
  right. left. exists "employerName", JNull.
  split; [simpl; tauto|]. split; reflexivity.
Defined.

(** A page under [results], and a [results] that is [null]. *)
Lemma page_delivered_witness :
  fst (@_fetch_jobs (Sample.always (Sample.page [Sample.titled "Dev"]))
         (Some "python") None 10 5 0 false None None [])
  = Ok (Some (JArr [Sample.titled "Dev"]))
  /\ fst (@_fetch_jobs
            (Sample.always
               (Ok {| status_code := 200;
                      body := Some (JObj [("results", JNull)]) |}))
            (Some "python") None 10 5 0 false None None [])
     = Ok None.
Proof.
  split.
  - eapply (proj1 (page_delivered
                     (Sample.always (Sample.page [Sample.titled "Dev"]))
                     (Some "python") None 10 5 0 false None None [] _
                     eq_refl eq_refl)).
    right. eexists. split; reflexivity.
  - eapply (proj2 (page_delivered
                     (Sample.always
                        (Ok {| status_code := 200;
                               body := Some (JObj [("results", JNull)]) |}))
                     (Some "python") None 10 5 0 false None None [] _
                     eq_refl eq_refl));
      [reflexivity | reflexivity | discriminate].
Defined.

Lemma scraped_postings_are_parsed_witness :
  exists resp sent',
    @scrape Sample.runtime (Sample.always Sample.full_page) 1
      (Sample.wanted (Some 2)) []
    = (Ok (Some resp), sent')
    /\ Forall (fun p => exists job_data,
                          @_parse_job Sample.runtime job_data = Ok (Some p))
         (jobs resp).
Proof.
  eexists _, _. split; [vm_compute; reflexivity|].
  eapply (@scraped_postings_are_parsed Sample.runtime
            (Sample.always Sample.full_page) 1 (Sample.wanted (Some 2)) []).
  vm_compute; reflexivity.
Defined.

Lemma full_page_productive :
  @productive Sample.runtime (Sample.always Sample.full_page).
Proof.
  intros keywords location_name distance take skip is_remote job_type
    hours_old sent jobs sent'.
  unfold _fetch_jobs, try_exceptM, _fetch_jobs_try, session_get, mbind,
    M_bind, lift, mret, M_ret. simpl.
  intros [= <- <-] _. eexists. split; [reflexivity|].
  constructor. eexists. vm_compute; reflexivity.
Defined.

(** Three postings wanted of a vendor with postings on every page. *)
Lemma scrape_terminates_witness :
  exists resp sent',
    @scrape Sample.runtime (Sample.always Sample.full_page) 3
      (Sample.wanted (Some 3)) []
    = (Ok (Some resp), sent')
    /\ (length sent' <= 3)%nat.
Proof.
  apply (@scrape_terminates Sample.runtime (Sample.always Sample.full_page) 3
           (Sample.wanted (Some 3)) []);
    [exact full_page_productive | simpl; lia].
Defined.

Lemma blank_pages_barren : @barren Sample.runtime 1 Sample.blank_pages.
Proof.
  intros keywords location_name distance take skip is_remote job_type
    hours_old sent. eexists _, _.
  split; [reflexivity|]. split; [simpl; lia|].
  constructor; [vm_compute; reflexivity | constructor].
Defined.

Lemma barren_pages_never_end_witness :
  fst (@scrape Sample.runtime Sample.blank_pages 1000
         (Sample.wanted (Some 1)) [])
  = Ok None.
Proof.
  apply (@barren_pages_never_end Sample.runtime Sample.blank_pages 1 1000
           (Sample.wanted (Some 1)) []);
    [exact blank_pages_barren | simpl; lia | simpl; lia].
Defined.

(** ** [scrape]: the search criteria and the order of postings *)

Lemma distance_of_params keywords location_name distance take skip is_remote
    job_type hours_old :
  format_reed_search_params keywords location_name distance is_remote job_type
    hours_old take skip !! "distanceFromLocation"
  = Some (VInt (Z.min distance 100)).
Proof.
  params_by_cases keywords location_name is_remote job_type; reflexivity.
Qed.

Section Criteria.
Context `{Runtime} (vendor : Vendor).

Lemma while_loop_page_requests si rw rpp fuel :
  forall st sent,
    exists new,
      snd (while_loop vendor fuel si rw rpp st sent) = (sent ++ new)%list
      /\ Forall (fun request => exists st, request = page_request si rw rpp st)
           new.
Proof.
  induction fuel as [|fuel IH]; intros st sent; simpl;
    destruct (total_fetched st <? rw) eqn:Hc;
    try (exists []; by rewrite app_nil_r).
  unfold mbind, M_bind.
  destruct (loop_body_returns vendor si rw rpp st sent)
    as (fl & st1 & items & -> & _).
  destruct fl.
  - eexists [_]. split; [done|]. constructor; [by eexists | done].
  - destruct (IH st1 (sent ++ [page_request si rw rpp st])%list)
      as (new & -> & Hnew).
    exists (page_request si rw rpp st :: new). split.
    + by rewrite <- app_assoc.
    + constructor; [by eexists | done].
Qed.

(** The requests of one [scrape] differ only in how many records they take
    and skip: each carries the search term, location, remote flag and job
    type of the input, and a distance that is the input's, 10 miles when it
    is unset or 0, capped at 100. *)
Theorem search_criteria_fixed fuel si sent :
  exists new,
    snd (scrape vendor fuel si sent) = (sent ++ new)%list
    /\ Forall
         (fun request =>
            (exists take skip,
                request
                = search_request (search_term si) (location si)
                    (or_default (distance si) 10) take skip (is_remote si)
                    (job_type si) (hours_old si))
            /\ params request !! "distanceFromLocation"
               = Some (VInt (Z.min (or_default (distance si) 10) 100)))
         new.
Proof.
  unfold scrape, mbind, M_bind. cbv zeta.
  destruct (while_loop_page_requests si (or_default (results_wanted si) 15)
              (Z.min 100 (or_default (results_wanted si) 15)) fuel
              (initial si) sent) as (new & Hs & Hnew).
  exists new. split.
  - destruct (while_loop _ _ _ _ _ _ _) as [[st|e] s]; simpl in *; done.
  - eapply Forall_impl; [exact Hnew|]. intros request [st ->]. split.
    + by eexists _, _.
    + apply distance_of_params.
Qed.
End Criteria.

Section Order.
Context `{Runtime} (vendor : Vendor).
Variables (si : ScraperInput) (rw rpp : Z).


End Order.

